(** * cachedoutput: notebook output cache keyed by source digest

    A shallow embedding of [cachedoutput.py]: the file-backed [OutputCache]
    and the [CachedOutputPreprocessor] that consults it before running a
    cell.

    Conventions of the embedding:
    - Python [str] values are Rocq [string]s holding the UTF-8 bytes of the
      text, so [source.encode('utf8')] is the list of the string's bytes;
      concatenation and [str.join] commute with that encoding, and slices
      count characters, not bytes.
    - cell indices ([enumerate]) are [nat]; the [setup_cells] trait is a
      Python integer and is kept in [Z].
    - the cache directory is a finite map from path names to file contents;
      path names are joined as [posixpath.join] does. A file is known by
      its name: the paths the cache builds from digests (a root and two
      components of hexadecimal digits) name different files when they
      differ.
    - exceptions are values of [exn]; a computation returns a [result]
      together with the state it leaves behind. *)

From Stdlib Require Import ZArith Ascii String List Lia.
From stdpp Require Import base option list gmap strings.

Local Open Scope Z_scope.

(** ** hashlib.sha1

    [hashlib] is outside the repository; SHA-1 is written out after
    FIPS 180-4 on 32-bit words kept in [Z], so that cache keys evaluate. *)
Module SHA1.

Definition mask32 : Z := 4294967295.

Definition add32 (a b : Z) : Z := Z.land (a + b) mask32.

Definition rotl (n x : Z) : Z :=
  Z.lor (Z.land (Z.shiftl x n) mask32) (Z.shiftr x (32 - n)).

Definition not32 (x : Z) : Z := Z.lxor x mask32.

Definition byte_of_ascii (c : ascii) : Z := Z.of_N (N_of_ascii c).

Fixpoint bytes_of_string (s : string) : list Z :=
  match s with
  | EmptyString => []
  | String c s' => byte_of_ascii c :: bytes_of_string s'
  end.

(** Big-endian bytes of [x], [n] of them. *)
Fixpoint be_bytes (n : nat) (x : Z) : list Z :=
  match n with
  | O => []
  | S n' => be_bytes n' (Z.shiftr x 8) ++ [Z.land x 255]
  end.

Definition pad (msg : list Z) : list Z :=
  let len := Z.of_nat (length msg) in
  let zeros := Z.to_nat ((55 - len) mod 64) in
  msg ++ [128] ++ repeat 0 zeros ++ be_bytes 8 (8 * len).

Fixpoint words_of_bytes (n : nat) (bs : list Z) : list Z :=
  match n, bs with
  | S n', b0 :: b1 :: b2 :: b3 :: rest =>
      (Z.shiftl b0 24 + Z.shiftl b1 16 + Z.shiftl b2 8 + b3)
        :: words_of_bytes n' rest
  | _, _ => []
  end.

(** Message schedule, most recent word first. *)
Fixpoint expand (n : nat) (rw : list Z) : list Z :=
  match n with
  | O => rw
  | S n' =>
      let w := Z.lxor (Z.lxor (nth 2 rw 0) (nth 7 rw 0))
                      (Z.lxor (nth 13 rw 0) (nth 15 rw 0)) in
      expand n' (rotl 1 w :: rw)
  end.

Definition schedule (block : list Z) : list Z :=
  rev (expand 64 (rev block)).

Definition f (t : nat) (b c d : Z) : Z :=
  if (t <? 20)%nat then Z.lor (Z.land b c) (Z.land (not32 b) d)
  else if (t <? 40)%nat then Z.lxor (Z.lxor b c) d
  else if (t <? 60)%nat then
    Z.lor (Z.lor (Z.land b c) (Z.land b d)) (Z.land c d)
  else Z.lxor (Z.lxor b c) d.

Definition K (t : nat) : Z :=
  if (t <? 20)%nat then 1518500249
  else if (t <? 40)%nat then 1859775393
  else if (t <? 60)%nat then 2400959708
  else 3395469782.

Record hstate := H5 { ha : Z; hb : Z; hc : Z; hd : Z; he : Z }.

Definition initial : hstate :=
  H5 1732584193 4023233417 2562383102 271733878 3285377520.

Fixpoint rounds (t : nat) (ws : list Z) (s : hstate) : hstate :=
  match ws with
  | [] => s
  | w :: ws' =>
      let temp :=
        add32 (add32 (add32 (add32 (rotl 5 (ha s)) (f t (hb s) (hc s) (hd s)))
                            (he s)) (K t)) w in
      rounds (S t) ws' (H5 temp (ha s) (rotl 30 (hb s)) (hc s) (hd s))
  end.

Definition compress (s : hstate) (block : list Z) : hstate :=
  let r := rounds 0 (schedule block) s in
  H5 (add32 (ha s) (ha r)) (add32 (hb s) (hb r)) (add32 (hc s) (hc r))
     (add32 (hd s) (hd r)) (add32 (he s) (he r)).

Fixpoint blocks (n : nat) (ws : list Z) (s : hstate) : hstate :=
  match n with
  | O => s
  | S n' => blocks n' (skipn 16 ws) (compress s (firstn 16 ws))
  end.

Definition digest (msg : list Z) : hstate :=
  let bs := pad msg in
  let nwords := (length bs / 4)%nat in
  blocks (nwords / 16)%nat (words_of_bytes nwords bs) initial.

Definition hex_digit (x : Z) : ascii :=
  if x <? 10 then ascii_of_N (Z.to_N (48 + x)) else ascii_of_N (Z.to_N (87 + x)).

Fixpoint hex_of (n : nat) (x : Z) (acc : string) : string :=
  match n with
  | O => acc
  | S n' => hex_of n' (Z.shiftr x 4) (String (hex_digit (Z.land x 15)) acc)
  end.

Definition hexdigest (s : hstate) : string :=
  hex_of 8 (ha s) (hex_of 8 (hb s) (hex_of 8 (hc s)
    (hex_of 8 (hd s) (hex_of 8 (he s) EmptyString)))).

(** [sha1(b).hexdigest()] on the bytes of [s]. *)
Definition sha1_hex (s : string) : string :=
  hexdigest (digest (bytes_of_string s)).

End SHA1.

Arguments SHA1.sha1_hex : simpl never.

(** ** Python strings and lists *)
Module Py.

Definition newline : string := String "010"%char EmptyString.

(** A byte [10xxxxxx]: it continues the character begun before it. *)
Definition is_continuation (c : ascii) : bool :=
  let n := N_of_ascii c in ((128 <=? n) && (n <? 192))%N.

(** [s[:n]]: the first [n] characters, each with the bytes that continue
    it. *)
Fixpoint slice_to (n : nat) (s : string) : string :=
  match s with
  | EmptyString => EmptyString
  | String c s' =>
      if is_continuation c then String c (slice_to n s')
      else match n with
           | O => EmptyString
           | S n' => String c (slice_to n' s')
           end
  end.

(** [s[n:]]: what follows the first [n] characters. *)
Fixpoint slice_from (n : nat) (s : string) : string :=
  match s with
  | EmptyString => EmptyString
  | String c s' =>
      if is_continuation c then slice_from n s'
      else match n with
           | O => s
           | S n' => slice_from n' s'
           end
  end.

(** [sep.join(l)] *)
Fixpoint join (sep : string) (l : list string) : string :=
  match l with
  | [] => EmptyString
  | [x] => x
  | x :: l' => x +:+ sep +:+ join sep l'
  end.

(** [l.index(x)]: position of the first element equal to [x];
    [None] stands for the [ValueError] Python raises. *)
Fixpoint index (x : string) (l : list string) : option nat :=
  match l with
  | [] => None
  | y :: l' => if decide (y = x) then Some O else S <$> index x l'
  end.

(** Truth value of a string or of a list: non-empty. *)
Definition truthy (s : string) : bool :=
  match s with EmptyString => false | _ => true end.

Definition nonempty {A} (l : list A) : bool :=
  match l with [] => false | _ => true end.

(** [posixpath.join]: a component that starts with the separator
    discards what precedes it; a separator is added unless the path so
    far is empty or already ends with one. *)
Definition startswith_sep (s : string) : bool :=
  match s with
  | String c _ => bool_decide (c = "/"%char)
  | EmptyString => false
  end.

Fixpoint endswith_sep (s : string) : bool :=
  match s with
  | EmptyString => false
  | String c EmptyString => bool_decide (c = "/"%char)
  | String _ s' => endswith_sep s'
  end.

Definition path_join2 (path b : string) : string :=
  if startswith_sep b then b
  else if negb (truthy path) || endswith_sep path then path +:+ b
  else path +:+ "/" +:+ b.

Definition path_join (a : string) (p : list string) : string :=
  fold_left path_join2 p a.

End Py.

(** ** Exceptions and the state-and-exception monad *)

Inductive exn : Type :=
| KeyError (key : string)
| FileNotFoundError (path : string)
| JSONDecodeError            (* a [ValueError] raised by [json.load] *)
| ValueError                 (* raised by [list.index] *)
| UnboundLocalError (name : string)
| KernelError.               (* whatever the execution engine raises *)

Inductive result (A : Type) : Type :=
| Ok (a : A)
| Raise (e : exn).
Arguments Ok {A} a.
Arguments Raise {A} e.

Definition M (S A : Type) : Type := S -> result A * S.

Definition ret {S A} (a : A) : M S A := fun s => (Ok a, s).

Definition raise {S A} (e : exn) : M S A := fun s => (Raise e, s).

Definition bind {S A B} (m : M S A) (k : A -> M S B) : M S B :=
  fun s => match m s with
           | (Ok a, s') => k a s'
           | (Raise e, s') => (Raise e, s')
           end.

(** [try: m finally: fin] where [fin] does not raise. *)
Definition finally {S A} (m : M S A) (fin : S -> S) : M S A :=
  fun s => let '(r, s') := m s in (r, fin s').

Notation "'let*' x := c1 'in' c2" := (bind c1 (fun x => c2))
  (at level 10, x name, c1 at level 200, c2 at level 200).
Notation "c1 ;;; c2" := (bind c1 (fun _ => c2))
  (at level 100, c2 at level 200, right associativity).

(** [json.dump] and [json.load] come from the standard library; the cache
    only needs them as a pair of functions on file contents. *)
Class Json (value : Type) : Type := {
  json_dump : value -> string;
  json_load : string -> option value
}.

(** What the cache relies on: a dumped value loads back. *)
Class JsonRoundTrip (value : Type) `{Json value} : Prop :=
  json_load_dump : forall v : value, json_load (json_dump v) = Some v.

(** ** class OutputCache *)
Module OutputCache.

(** The regular files below the cache root, by path name. Directories
    are implied by the names: [__setitem__] makes the missing ones. *)
Abbreviation files := (gmap string string).

Definition _path (root key : string) : string :=
  Py.path_join root [Py.slice_to 2 key; Py.slice_from 2 key +:+ ".json"].

Definition __contains__ (root key : string) (fs : files) : bool :=
  bool_decide (is_Some (fs !! _path root key)).

Definition __getitem__ {value : Type} `{!Json value} (root key : string) : M files value :=
  fun fs =>
    if negb (__contains__ root key fs) then (Raise (KeyError key), fs)
    else match fs !! _path root key with
         | None => (Raise (FileNotFoundError (_path root key)), fs)
         | Some text =>
             match json_load text with
             | Some v => (Ok v, fs)
             | None => (Raise JSONDecodeError, delete (_path root key) fs)
             end
         end.

Definition __setitem__ {value : Type} `{!Json value} (root key : string)
  (v : value)
  : M files unit :=
  fun fs => (Ok tt, <[_path root key := json_dump v]> fs).

End OutputCache.

(** ** The execution engine

    [start_new_kernel], [ExecutePreprocessor.run_cell] and the kernel
    shutdown belong to jupyter_client and nbconvert. They act on the world
    outside the program (processes, the kernel's namespace), of which
    nothing is assumed. *)
Class Engine (output : Type) : Type := {
  world : Type;
  (** [start_new_kernel(kernel_name=..., cwd=...)] *)
  start_new_kernel : string -> option string -> M world unit;
  (** [super().run_cell(cell)] on a code cell with the given source, in
      the kernel started last; returns the cell's outputs. *)
  execute : string -> M world (list output);
  (** [kc.stop_channels(); km.shutdown_kernel(now=True)] *)
  shutdown_kernel : world -> world
}.

(** ** class CachedOutputPreprocessor *)
Module CachedOutputPreprocessor.

Section Preprocessor.
Context {output : Type}.

Record cell : Type := Cell {
  cell_type : string;
  source : string;
  outputs : option (list output)
}.

Record notebook : Type := Notebook {
  kernelspec_name : option string;   (* nb.metadata.kernelspec.name *)
  cells : list cell
}.

Record resources : Type := Resources {
  metadata_path : option string      (* resources['metadata']['path'] *)
}.

(** The configurable traits. *)
Record traits : Type := Traits {
  cache_directory : string;
  setup_cells : Z
}.

Definition default_traits : traits :=
  Traits "/tmp/nb_output_cache" 1.

(** The attributes [preprocess] assigns before the cells are visited. *)
Record self : Type := Self {
  config : traits;
  kernel_name : string;
  kernel_path : option string;
  setup : list string;
  end_setup_index : nat
}.

Definition is_code (c : cell) : bool :=
  bool_decide (cell_type c = "code").

(** The text [cache_key] hashes: the value of its local [source] when
    the digest is taken. *)
Definition effective_source (me : self) (source : string)
    (cell_index : nat) : string :=
  if (end_setup_index me <? cell_index)%nat && Py.nonempty (setup me)
  then Py.join Py.newline (setup me ++ [source])
  else source.

Definition cache_key (me : self) (source : string) (cell_index : nat)
  : string :=
  SHA1.sha1_hex (effective_source me source cell_index).

(** The loop that extracts the setup cells. [idx] is the index the
    next cell gets from [enumerate]; [last] is the loop variable [idx]
    as Python sees it after the loop, unbound ([None]) until the first
    iteration. *)
Fixpoint extract_setup (n : Z) (cs : list cell) (idx : nat)
    (setup : list string) (last : option nat)
  : list string * option nat :=
  match cs with
  | [] => (setup, last)
  | c :: cs' =>
      if Z.of_nat (length setup) >=? n then (setup, Some idx)
      else extract_setup n cs' (S idx)
             (if is_code c then setup ++ [source c] else setup)
             (Some idx)
  end.

Context `{!Json (list output)} `{!Engine output}.

(** What one run leaves behind: the cache files, the world the engine
    acts on, and the record of what was logged and executed. *)
Inductive event : Type :=
| CacheHit (cell_index : nat) (key : string)          (* log.debug *)
| Executing (cell_index : nat) (kernel_name : string) (* log.info *)
| Ran (source : string).                              (* run_cell(...) *)

Record state : Type := State {
  fs : gmap string string;
  env : world;
  trace : list event
}.

Definition on_fs {A} (m : M (gmap string string) A) : M state A :=
  fun s => let '(r, fs') := m (fs s) in (r, State fs' (env s) (trace s)).

Definition on_env {A} (m : M world A) : M state A :=
  fun s => let '(r, w') := m (env s) in (r, State (fs s) w' (trace s)).

Definition emit (e : event) : M state unit :=
  fun s => (Ok tt, State (fs s) (env s) (trace s ++ [e])).

Definition stop (s : state) : state :=
  State (fs s) (shutdown_kernel (env s)) (trace s).

(** [super(CachedOutputPreprocessor, self).run_cell] *)
Definition super_run_cell (src : string) : M state (list output) :=
  emit (Ran src) ;;; on_env (execute src).

(** The source of [setup_cell] in [run_cell]. *)
Definition setup_cell_source (me : self) (c : cell) (cell_index : nat)
  : M state string :=
  if (end_setup_index me <=? cell_index)%nat
  then ret (Py.join Py.newline (setup me))
  else match Py.index (source c) (setup me) with
       | Some idx => ret (Py.join Py.newline (take idx (setup me)))
       | None => raise ValueError
       end.

Definition run_cell (me : self) (c : cell) (cell_index : nat)
  : M state (list output) :=
  emit (Executing cell_index (kernel_name me)) ;;;
  on_env (start_new_kernel (kernel_name me) (kernel_path me)) ;;;
  finally
    (let* setup_source := setup_cell_source me c cell_index in
     (if Py.truthy setup_source
      then (let* _ := super_run_cell setup_source in ret tt)
      else ret tt) ;;;
     super_run_cell (source c))
    stop.

Definition preprocess_cell (me : self) (c : cell) (cell_index : nat)
  : M state cell :=
  if negb (is_code c) then ret c
  else
    let key := cache_key me (source c) cell_index in
    fun s =>
      if OutputCache.__contains__ (cache_directory (config me)) key (fs s)
      then
        (emit (CacheHit cell_index key) ;;;
         let* outs :=
           on_fs (OutputCache.__getitem__ (cache_directory (config me)) key) in
         ret (Cell (cell_type c) (source c) (Some outs))) s
      else
        (let* outs := run_cell me c cell_index in
         on_fs (OutputCache.__setitem__ (cache_directory (config me)) key outs) ;;;
         ret (Cell (cell_type c) (source c) (Some outs))) s.

(** [Preprocessor.preprocess] of nbconvert, reached by skipping one
    level of [super]: every cell is replaced by the result of
    [preprocess_cell] at its index. *)
Fixpoint preprocess_cells (me : self) (cell_index : nat) (cs : list cell)
  : M state (list cell) :=
  match cs with
  | [] => ret []
  | c :: cs' =>
      let* c' := preprocess_cell me c cell_index in
      let* rest := preprocess_cells me (S cell_index) cs' in
      ret (c' :: rest)
  end.

(** The first half of [preprocess]: the attributes it assigns before
    the cells are visited. [idx] is still unbound after the loop when
    the notebook has no cell. *)
Definition configure (cfg : traits) (nb : notebook) (res : resources)
  : result self :=
  let kernel_name := default "python" (kernelspec_name nb) in
  let kernel_path := metadata_path res in
  let '(setup, last) :=
    extract_setup (setup_cells cfg) (cells nb) 0 [] None in
  match last with
  | None => Raise (UnboundLocalError "idx")
  | Some idx => Ok (Self cfg kernel_name kernel_path setup idx)
  end.

Definition preprocess (cfg : traits) (nb : notebook) (res : resources)
  : M state (notebook * resources) :=
  match configure cfg nb res with
  | Raise e => raise e
  | Ok me =>
      let* cs := preprocess_cells me 0 (cells nb) in
      ret (Notebook (kernelspec_name nb) cs, res)
  end.

End Preprocessor.

Arguments cell : clear implicits.
Arguments cache_key : simpl never.
Arguments notebook : clear implicits.

End CachedOutputPreprocessor.

Import CachedOutputPreprocessor.

(** ** The specification's vocabulary *)
Module Spec.

(** Effective source in the spec's words: the Setup Set followed by the
    cell's own source, joined with newlines, when the cell's index is
    greater than the boundary index and the Setup Set is not empty; the
    cell's own source otherwise. *)
Definition effective_source (setup_set : list string) (boundary : nat)
    (cell_index : nat) (cell_source : string) : string :=
  if decide ((boundary < cell_index)%nat ∧ setup_set ≠ [])
  then String.concat Py.newline (setup_set ++ [cell_source])
  else cell_source.

(** [root/k[0:2]/k[2:].json], letter for letter. *)
Definition sharded_path (root k : string) : string :=
  root +:+ "/" +:+ Py.slice_to 2 k +:+ "/" +:+ Py.slice_from 2 k +:+ ".json".

(** The file [k[0:2]/k[2:].json], named relative to the cache root. *)
Definition shard_name (k : string) : string :=
  Py.slice_to 2 k +:+ "/" +:+ Py.slice_from 2 k +:+ ".json".

(** No character of [s] is the path separator. *)
Fixpoint no_sep (s : string) : bool :=
  match s with
  | EmptyString => true
  | String c s' => negb (bool_decide (c = "/"%char)) && no_sep s'
  end.

(** The sources of the code cells of a list of cells, in order. *)
Definition code_sources {output : Type}
    (cs : list (CachedOutputPreprocessor.cell output)) : list string :=
  CachedOutputPreprocessor.source
    <$> filter (λ c, CachedOutputPreprocessor.is_code c = true) cs.

(** [preprocess_cell] on [c] at index [i] finds the cell's key in the
    cache [fs] and turns [c] into [c']. *)
Definition cell_hit {output : Type} `{!Json (list output)} (me : self)
    (fs : gmap string string) (i : nat) (c c' : cell output) : Prop :=
  if is_code c
  then ∃ text outs,
      fs !! OutputCache._path (cache_directory (config me))
              (cache_key me (source c) i) = Some text
      ∧ json_load text = Some outs
      ∧ c' = Cell (cell_type c) (source c) (Some outs)
  else c' = c.

Fixpoint cells_hit {output : Type} `{!Json (list output)} (me : self)
    (fs : gmap string string) (i : nat) (cs cs' : list (cell output))
  : Prop :=
  match cs, cs' with
  | [], [] => True
  | c :: cs, c' :: cs' => cell_hit me fs i c c' ∧ cells_hit me fs (S i) cs cs'
  | _, _ => False
  end.

(** What a pass logs when every code cell is a cache hit. *)
Fixpoint hit_events {output : Type} (me : self) (i : nat)
    (cs : list (cell output)) : list event :=
  match cs with
  | [] => []
  | c :: cs' =>
      (if is_code c then [CacheHit i (cache_key me (source c) i)] else [])
        ++ hit_events me (S i) cs'
  end.

Definition is_hit (e : event) : Prop := ∃ i key, e = CacheHit i key.

(** The number of code cells of a notebook. *)
Definition code_cells {output : Type} (cs : list (cell output)) : nat :=
  length (filter (λ c, is_code c = true) cs).

End Spec.

(** ** A small engine and serializer, for running the embedding *)
Module Example.

(** Output records that carry nothing: each is written as [null]. *)
Fixpoint dump_rest (l : list unit) : string :=
  match l with
  | [] => "]"
  | _ :: l' => ", null" +:+ dump_rest l'
  end.

Definition dump (l : list unit) : string :=
  match l with
  | [] => "[]"
  | _ :: l' => "[null" +:+ dump_rest l'
  end.

Fixpoint load_rest (s : string) : option (list unit) :=
  match s with
  | String "]" EmptyString => Some []
  | String "," (String " " (String "n" (String "u" (String "l"
      (String "l" s'))))) => cons tt <$> load_rest s'
  | _ => None
  end.

Definition load (s : string) : option (list unit) :=
  match s with
  | String "[" (String "]" EmptyString) => Some []
  | String "[" (String "n" (String "u" (String "l" (String "l" s')))) =>
      cons tt <$> load_rest s'
  | _ => None
  end.

#[export] Instance json : Json (list unit) :=
  {| json_dump := dump; json_load := load |}.

(** An engine that counts the sources it has run and answers each with
    one output record. *)
#[export] Instance engine : Engine unit :=
  {| world := nat;
     start_new_kernel := λ _ _ w, (Ok tt, w);
     execute := λ _ w, (Ok [tt], S w);
     shutdown_kernel := λ w, w |}.

(** An engine whose kernel fails on every source. *)
Definition failing_engine : Engine unit :=
  {| world := nat;
     start_new_kernel := λ _ _ w, (Ok tt, w);
     execute := λ _ w, (Raise KernelError, S w);
     shutdown_kernel := λ w, w |}.

Definition code (src : string) : CachedOutputPreprocessor.cell unit :=
  CachedOutputPreprocessor.Cell "code" src None.

Definition markdown (src : string) : CachedOutputPreprocessor.cell unit :=
  CachedOutputPreprocessor.Cell "markdown" src None.

Definition nb_of (cs : list (CachedOutputPreprocessor.cell unit))
  : CachedOutputPreprocessor.notebook unit :=
  CachedOutputPreprocessor.Notebook None cs.

Definition no_resources : CachedOutputPreprocessor.resources :=
  CachedOutputPreprocessor.Resources None.

(** An empty cache directory and an engine that has run nothing. *)
Definition fresh : CachedOutputPreprocessor.state :=
  @CachedOutputPreprocessor.State unit engine ∅ O [].

(** The same start for the engine that fails. *)
Definition fresh_failing : @CachedOutputPreprocessor.state unit failing_engine :=
  @CachedOutputPreprocessor.State unit failing_engine ∅ O [].

(** A reader that knows one notebook. *)
Definition read_one (path : string)
  : result (CachedOutputPreprocessor.notebook unit) :=
  if decide (path = "good.ipynb")
  then Ok (nb_of [code "x = 1"; code "print(x)"])
  else Raise (FileNotFoundError path).

End Example.

Import Example.

(** ** The command line: [main] *)
Module Script.

Definition is_sep (c : ascii) : bool := bool_decide (c = "/"%char).

(** On the characters of a path in reverse order: what is left of
    [p[:p.rfind('/') + 1]]. *)
Fixpoint upto_last_sep (rev_p : list ascii) : list ascii :=
  match rev_p with
  | [] => []
  | c :: r => if is_sep c then rev_p else upto_last_sep r
  end.

(** [rstrip('/')], on the reversed characters. *)
Fixpoint strip_sep (rev_p : list ascii) : list ascii :=
  match rev_p with
  | [] => []
  | c :: r => if is_sep c then strip_sep r else rev_p
  end.

(** [posixpath.dirname] *)
Definition dirname (p : string) : string :=
  let head := upto_last_sep (rev (list_ascii_of_string p)) in
  let head :=
    if Py.nonempty head && negb (forallb is_sep head)
    then strip_sep head else head in
  string_of_list_ascii (rev head).

(** [os.path.dirname(path) or '.'] *)
Definition working_directory (path : string) : string :=
  if Py.truthy (dirname path) then dirname path else ".".

Section Main.
Context {output : Type} `{!Json (list output)} `{!Engine output}.

(** [nbformat.read(path, as_version=4)] belongs to nbformat: a notebook,
    or the exception it raises. *)
Variable read : string → result (notebook output).

(** The state of a run of the script: what the preprocessor acts on, and
    the notebooks written to standard output so far. *)
Record process : Type := Process {
  run : state;
  stdout : list (notebook output)
}.

(** The body of the loop of [main]; the preprocessor [p] is created with
    the default traits. *)
Definition main_body (path : string) : M process unit :=
  fun ps =>
    match read path with
    | Raise e => (Raise e, ps)
    | Ok nb =>
        let res := Resources (Some (working_directory path)) in
        match preprocess default_traits nb res (run ps) with
        | (Ok (nb', _), s') => (Ok tt, Process s' (stdout ps ++ [nb']))
        | (Raise e, s') => (Raise e, Process s' (stdout ps))
        end
    end.

Fixpoint main_loop (paths : list string) : M process unit :=
  match paths with
  | [] => ret tt
  | path :: paths' => main_body path ;;; main_loop paths'
  end.

(** [main], on [sys.argv]. *)
Definition main (argv : list string) : M process unit :=
  main_loop (tail argv).

End Main.

End Script.

(** ** More vocabulary *)
Module Shape.

Definition is_hex (c : ascii) : bool :=
  let n := N_of_ascii c in
  ((48 <=? n) && (n <=? 57) || (97 <=? n) && (n <=? 102))%N.

Fixpoint all_hex (s : string) : bool :=
  match s with
  | EmptyString => true
  | String c s' => is_hex c && all_hex s'
  end.

(** A cache root [_path] can put a shard below by adding one separator. *)
Definition plain_root (root : string) : Prop :=
  Py.truthy root = true ∧ Py.endswith_sep root = false.

(** A key as the cache receives it: hexadecimal digits, two at least. *)
Definition hex_key (k : string) : Prop :=
  all_hex k = true ∧ (2 ≤ String.length k)%nat.

(** Two cells are the same up to their outputs. *)
Definition same_text {output : Type} (c c' : cell output) : Prop :=
  cell_type c' = cell_type c ∧ source c' = source c.

(** What a pass may do to a cell: keep type and source, leave a cell that
    is not code as it is, give a code cell outputs. *)
Definition touched {output : Type} (c c' : cell output) : Prop :=
  same_text c c'
  ∧ (is_code c = false → c' = c)
  ∧ (is_code c = true → is_Some (outputs c')).

(** A file that parses as JSON. *)
Definition valid_entry {output : Type} `{!Json (list output)}
    (text : string) : Prop :=
  is_Some (json_load (value:=list output) text).

(** What [os.path.join] puts in front of a relative name. *)
Definition root_prefix (root : string) : string :=
  if negb (Py.truthy root) || Py.endswith_sep root
  then root else root +:+ "/".

End Shape.

(** * Properties *)

(** ** Python helpers *)
Section PyFacts.

Lemma join_concat sep l : Py.join sep l = String.concat sep l.
Proof.
  induction l as [|x [|y l] IH]; [done..|].
  change (Py.join sep (x :: y :: l)) with (x +:+ sep +:+ Py.join sep (y :: l)).
  by rewrite IH.
Qed.

Lemma index_Some x l i :
  Py.index x l = Some i → l !! i = Some x ∧ x ∉ take i l.
Proof.
  revert i. induction l as [|y l IH]; intros i; simpl; [done|].
  destruct (decide (y = x)) as [->|Hne].
  - intros [= <-]. split; [done|]. simpl. apply not_elem_of_nil.
  - destruct (Py.index x l) as [j|] eqn:Hj; simpl; [|done].
    intros [= <-]. destruct (IH j eq_refl) as [Hl Hn]. split; [done|].
    simpl. rewrite not_elem_of_cons. split; [congruence|done].
Qed.

Lemma index_le x l j :
  l !! j = Some x → ∃ i, Py.index x l = Some i ∧ (i ≤ j)%nat.
Proof.
  revert j. induction l as [|y l IH]; intros j; [done|]. simpl.
  destruct (decide (y = x)) as [->|Hne].
  - intros _. exists O. split; [done|lia].
  - destruct j as [|j]; simpl; [congruence|].
    intros Hl. destruct (IH j Hl) as (i & -> & Hi).
    exists (S i). split; [done|lia].
Qed.

Lemma index_None x l : Py.index x l = None → x ∉ l.
Proof.
  induction l as [|y l IH]; simpl; [intros _; apply not_elem_of_nil|].
  destruct (decide (y = x)); [done|].
  destruct (Py.index x l); simpl; [done|].
  intros _. rewrite not_elem_of_cons. split; [congruence|by apply IH].
Qed.

End PyFacts.

(** ** Setup extraction *)
Section Extraction.
Context {output : Type}.
Implicit Types (cs : list (cell output)) (c : cell output).

Lemma code_sources_snoc cs c :
  Spec.code_sources (cs ++ [c])
  = Spec.code_sources cs ++ (if is_code c then [source c] else []).
Proof.
  unfold Spec.code_sources. rewrite filter_app, fmap_app. f_equal.
  rewrite filter_cons, filter_nil. destruct (is_code c); by case_decide.
Qed.

Lemma code_sources_cons cs c :
  Spec.code_sources (c :: cs)
  = (if is_code c then [source c] else []) ++ Spec.code_sources cs.
Proof.
  unfold Spec.code_sources. rewrite filter_cons.
  destruct (is_code c); by case_decide.
Qed.

(** The scan only ever appends to the Setup Set. *)
Lemma extract_setup_prefix n cs idx setup last setup' last' :
  extract_setup n cs idx setup last = (setup', last') →
  setup `prefix_of` setup'.
Proof.
  revert idx setup last.
  induction cs as [|c cs IH]; intros idx setup last He; simpl in He.
  - by injection He as <- _.
  - destruct (Z.of_nat (length setup) >=? n); [by injection He as <- _|].
    apply IH in He. destruct (is_code c); [|done].
    etrans; [|exact He]. by apply prefix_app_r.
Qed.

(** While the scan has not stopped, the Setup Set collects the sources
    of the code cells it passes, in order. *)
Lemma extract_setup_take n cs idx setup last setup' b k :
  extract_setup n cs idx setup last = (setup', Some b) →
  (k ≤ length cs)%nat → (idx + k ≤ b)%nat →
  take (length setup + length (Spec.code_sources (take k cs))) setup'
  = setup ++ Spec.code_sources (take k cs).
Proof.
  revert idx setup last k.
  induction cs as [|c cs IH]; intros idx setup last k He Hk Hb.
  - simpl in He. injection He as <- _.
    rewrite take_nil. unfold Spec.code_sources. simpl.
    rewrite Nat.add_0_r, app_nil_r. by rewrite firstn_all.
  - destruct k as [|k].
    { apply extract_setup_prefix in He as [l ->].
      unfold Spec.code_sources. simpl.
      rewrite Nat.add_0_r, app_nil_r. by rewrite take_app_length. }
    simpl in He. destruct (Z.of_nat (length setup) >=? n).
    { injection He as <- <-. lia. }
    simpl in Hk.
    specialize (IH _ _ _ k He ltac:(lia) ltac:(lia)).
    rewrite firstn_cons, code_sources_cons.
    destruct (is_code c); simpl.
    + rewrite length_app in IH. simpl in IH.
      rewrite <- (assoc_L (++)) in IH. simpl in IH. rewrite <- IH.
      f_equal. lia.
    + done.
Qed.

(** A code cell the scan has passed sits in the Setup Set at the
    position given by the number of code cells before it. *)
Lemma extract_setup_lookup n cs setup b i c :
  extract_setup n cs O [] None = (setup, Some b) →
  cs !! i = Some c → is_code c = true → (i < b)%nat →
  setup !! length (Spec.code_sources (take i cs)) = Some (source c)
  ∧ take (length (Spec.code_sources (take i cs))) setup
    = Spec.code_sources (take i cs).
Proof.
  intros He Hc Hcode Hi.
  pose proof (lookup_lt_Some _ _ _ Hc) as Hlen.
  pose proof (extract_setup_take _ _ _ _ _ _ _ (S i) He ltac:(lia) ltac:(lia))
    as HS.
  pose proof (extract_setup_take _ _ _ _ _ _ _ i He ltac:(lia) ltac:(lia))
    as Hi'.
  simpl in HS, Hi'. split; [|done].
  rewrite (take_S_r _ _ _ Hc), code_sources_snoc, Hcode in HS.
  rewrite length_app in HS. simpl in HS.
  apply (f_equal (λ l, l !! length (Spec.code_sources (take i cs)))) in HS.
  rewrite lookup_app_r, Nat.sub_diag in HS by lia. simpl in HS.
  rewrite lookup_take_lt in HS by lia. done.
Qed.

End Extraction.


Lemma configure_inv {output : Type} cfg (nb : notebook output) res me :
  configure cfg nb res = Ok me →
  extract_setup (setup_cells cfg) (cells nb) O [] None
    = (setup me, Some (end_setup_index me))
  ∧ config me = cfg.
Proof.
  unfold configure.
  destruct (extract_setup _ _ _ _ _) as [su [b|]]; [|done].
  by intros [= <-].
Qed.

(** The text match of [run_cell] finds a setup cell at or before its own
    position, and what precedes the match are sources of code cells that
    come before the cell in the notebook. *)
Lemma in_setup_index {output : Type} cfg (nb : notebook output) res me i c :
  configure cfg nb res = Ok me →
  cells nb !! i = Some c → is_code c = true →
  (i < end_setup_index me)%nat →
  ∃ idx, Py.index (source c) (setup me) = Some idx
    ∧ (idx ≤ length (Spec.code_sources (take i (cells nb))))%nat
    ∧ take idx (setup me) = take idx (Spec.code_sources (take i (cells nb)))
    ∧ source c ∉ take idx (setup me).
Proof.
  intros [He _]%configure_inv Hc Hcode Hi.
  destruct (extract_setup_lookup _ _ _ _ _ _ He Hc Hcode Hi) as [Hl Ht].
  destruct (index_le _ _ _ Hl) as (idx & Hidx & Hle).
  exists idx. split; [done|]. split; [done|].
  split; [|by apply index_Some].
  rewrite <- Ht, take_take. f_equal. lia.
Qed.

(** ** Cache keys *)
Section Keys.
Context {output : Type}.
Implicit Types (me : self) (c : cell output).

(** C1: the cache key of a cell is the SHA-1 hex digest of its effective
    source: the Setup Set sources followed by the cell's own source, joined
    with newlines, when the cell's index is strictly greater than the setup
    boundary index and the Setup Set is not empty, and the cell's own
    source alone otherwise. *)
Theorem cache_key_effective_source me (src : string) (i : nat) :
  cache_key me src i
  = SHA1.sha1_hex
      (Spec.effective_source (setup me) (end_setup_index me) i src).
Proof.
  unfold cache_key, effective_source, Spec.effective_source. f_equal.
  rewrite <- (join_concat Py.newline (setup me ++ [src])).
  destruct (Nat.ltb_spec (end_setup_index me) i) as [Hlt|Hge]; simpl.
  - destruct (setup me) as [|x l] eqn:Hs; simpl.
    + case_decide as Hd; [by destruct Hd|done].
    + case_decide as Hd; [done|]. destruct Hd. by split.
  - case_decide as Hd; [lia|done].
Qed.

(** C9: after setup extraction, every code cell whose index is below the
    setup boundary index has its source in the Setup Set, so the text match
    of [run_cell] succeeds and no [ValueError] is raised there. *)
Theorem setup_lookup_never_fails `{!Json (list output)} `{!Engine output}
    cfg (nb : notebook output) res me i c :
  configure cfg nb res = Ok me →
  cells nb !! i = Some c → is_code c = true →
  (i < end_setup_index me)%nat →
  source c ∈ setup me
  ∧ ∃ idx, Py.index (source c) (setup me) = Some idx
      ∧ ∀ s, setup_cell_source me c i s
             = (Ok (Py.join Py.newline (take idx (setup me))), s).
Proof.
  intros Hcfg Hc Hcode Hi.
  destruct (in_setup_index _ _ _ _ _ _ Hcfg Hc Hcode Hi) as (idx & Hidx & _).
  split.
  - apply index_Some in Hidx as [Hl _]. by eapply list_elem_of_lookup_2.
  - exists idx. split; [done|]. intros s. unfold setup_cell_source.
    destruct (Nat.leb_spec (end_setup_index me) i); [lia|]. by rewrite Hidx.
Qed.

(** C10: on a notebook without cells, [preprocess] raises: the loop
    variable [idx] was never bound when [end_setup_index] is assigned. *)
Theorem preprocess_empty_notebook `{!Json (list output)} `{!Engine output}
    cfg kn res (s : state) :
  preprocess cfg (Notebook (output:=output) kn []) res s
  = (Raise (UnboundLocalError "idx"), s).
Proof. reflexivity. Qed.

End Keys.


(** ** The setup boundary in the cache key *)

(** C2: in the two-cell scenario the scan stops at index 1, which is the
    index of the second cell; its index is not greater than the boundary
    and the text hashed for its key is its own source, without the setup
    cell's source in front. *)
Theorem scenario_second_cell_hashes_own_source :
  ∃ me,
    configure default_traits
      (Example.nb_of [Example.code "x = 1"; Example.code "print(x)"])
      Example.no_resources = Ok me
    ∧ setup me = ["x = 1"] ∧ end_setup_index me = 1%nat
    ∧ effective_source me "print(x)" 1 = "print(x)"
    ∧ effective_source me "print(x)" 1
      ≠ "x = 1" +:+ Py.newline +:+ "print(x)".
Proof. eexists. repeat split. vm_compute. discriminate. Qed.

(** C3: changing the source of the setup cell from [x = 1] to [x = 2]
    changes the Setup Set and leaves the cache key of the code cell right
    after it, at the boundary index, as it was. *)
Theorem setup_change_keeps_boundary_cell_key :
  ∃ me me',
    configure default_traits
      (Example.nb_of [Example.code "x = 1"; Example.code "print(x)"])
      Example.no_resources = Ok me
    ∧ configure default_traits
        (Example.nb_of [Example.code "x = 2"; Example.code "print(x)"])
        Example.no_resources = Ok me'
    ∧ setup me ≠ setup me'
    ∧ cache_key me "print(x)" 1 = cache_key me' "print(x)" 1.
Proof. do 2 eexists. repeat split. vm_compute. discriminate. Qed.

(** C4: two notebooks with the same setup cell and the same target cell;
    a markdown cell between the two moves the target past the boundary
    index and its cache key is another one. *)
Theorem unrelated_cell_changes_key :
  ∃ me me',
    configure default_traits
      (Example.nb_of [Example.code "import os"; Example.code "os.getcwd()"])
      Example.no_resources = Ok me
    ∧ configure default_traits
        (Example.nb_of [Example.code "import os"; Example.markdown "# Notes";
                        Example.code "os.getcwd()"])
        Example.no_resources = Ok me'
    ∧ setup me = setup me'
    ∧ cache_key me "os.getcwd()" 1 ≠ cache_key me' "os.getcwd()" 2.
Proof. do 2 eexists. repeat split. vm_compute. discriminate. Qed.

(** What does hold across the boundary: the key of a cell at or before
    the boundary index does not depend on the Setup Set, and the text hashed
    for a cell past it changes with every change to one setup source. *)
Lemma cache_key_up_to_boundary (me : self) (src : string) (i : nat) :
  (i ≤ end_setup_index me)%nat → cache_key me src i = SHA1.sha1_hex src.
Proof.
  intros Hi. unfold cache_key, effective_source.
  by destruct (Nat.ltb_spec (end_setup_index me) i); [lia|].
Qed.

Lemma cache_key_same_setup (me me' : self) (src : string) (i j : nat) :
  setup me = setup me' →
  (end_setup_index me < i)%nat → (end_setup_index me' < j)%nat →
  cache_key me src i = cache_key me' src j.
Proof.
  intros Hs Hi Hj. unfold cache_key, effective_source. rewrite <- Hs.
  by destruct (Nat.ltb_spec (end_setup_index me) i);
    destruct (Nat.ltb_spec (end_setup_index me') j); try lia.
Qed.

Lemma length_append (a b : string) :
  String.length (a +:+ b) = (String.length a + String.length b)%nat.
Proof.
  induction a as [|x a IH]; [reflexivity|].
  change (S (String.length (a +:+ b))
          = S (String.length a + String.length b)).
  by rewrite IH.
Qed.

Lemma append_cancel_r (a a' r : string) : a +:+ r = a' +:+ r → a = a'.
Proof.
  revert a'. induction a as [|x a IH]; intros [|x' a'] H.
  - done.
  - apply (f_equal String.length) in H.
    rewrite !length_append in H. simpl in H. lia.
  - apply (f_equal String.length) in H.
    rewrite !length_append in H. simpl in H. lia.
  - change (String x (a +:+ r) = String x' (a' +:+ r)) in H.
    injection H as -> H. by rewrite (IH _ H).
Qed.

Lemma join_middle sep (p q : list string) :
  q ≠ [] →
  ∃ before after, ∀ y,
    Py.join sep (p ++ y :: q) = before +:+ y +:+ after.
Proof.
  intros Hq. induction p as [|z p (before & after & IH)].
  - exists EmptyString, (sep +:+ Py.join sep q). intros y.
    destruct q; [done|reflexivity].
  - exists (z +:+ sep +:+ before), after. intros y.
    change (Py.join sep ((z :: p) ++ y :: q))
      with (Py.join sep (z :: (p ++ y :: q))).
    destruct (p ++ y :: q) as [|w l] eqn:Hl; [by destruct p|].
    change (Py.join sep (z :: w :: l)) with (z +:+ sep +:+ Py.join sep (w :: l)).
    rewrite <- Hl, IH.
    clear. induction z as [|c z IHz].
    + change (sep +:+ before +:+ y +:+ after
              = (sep +:+ before) +:+ y +:+ after).
      induction sep as [|c sep IHs]; [reflexivity|].
      change (String c (sep +:+ before +:+ y +:+ after)
              = String c ((sep +:+ before) +:+ y +:+ after)).
      by rewrite IHs.
    + change (String c (z +:+ sep +:+ before +:+ y +:+ after)
              = String c ((z +:+ sep +:+ before) +:+ y +:+ after)).
      by rewrite IHz.
Qed.

Lemma setup_change_past_boundary (me me' : self) (src x x' : string)
    (p q : list string) (i : nat) :
  setup me = p ++ x :: q → setup me' = p ++ x' :: q → x ≠ x' →
  end_setup_index me' = end_setup_index me →
  (end_setup_index me < i)%nat →
  effective_source me src i ≠ effective_source me' src i.
Proof.
  intros Hs Hs' Hne Hb Hi. unfold effective_source. rewrite Hb.
  destruct (Nat.ltb_spec (end_setup_index me) i); [|lia].
  rewrite Hs, Hs'. simpl.
  assert (Py.nonempty (p ++ x :: q) = true) as -> by by destruct p.
  assert (Py.nonempty (p ++ x' :: q) = true) as -> by by destruct p.
  rewrite <- !(assoc_L (++)). simpl.
  destruct (join_middle Py.newline p (q ++ [src])) as (before & after & Hj).
  { by destruct q. }
  rewrite !Hj. intros Heq. apply (inj (String.app before)) in Heq.
  by apply append_cancel_r in Heq.
Qed.

(** ** The cache files *)
Section Paths.

Lemma append_cons x (a b : string) : String x a +:+ b = String x (a +:+ b).
Proof. reflexivity. Qed.

Lemma append_assoc (a b c : string) : (a +:+ b) +:+ c = a +:+ b +:+ c.
Proof.
  induction a as [|x a IH]; [reflexivity|].
  by rewrite !append_cons, IH.
Qed.

Lemma truthy_append (a : string) x b : Py.truthy (a +:+ String x b) = true.
Proof. by destruct a. Qed.

Lemma endswith_sep_append (a : string) x y :
  Py.endswith_sep (a +:+ String x (String y EmptyString))
  = bool_decide (y = "/"%char).
Proof.
  induction a as [|z a IH]; [reflexivity|].
  rewrite append_cons. destruct a as [|z' a]; [reflexivity|].
  rewrite append_cons in *. exact IH.
Qed.

Lemma path_join2_relative (path b : string) :
  Py.startswith_sep b = false →
  Py.path_join2 path b
  = if negb (Py.truthy path) || Py.endswith_sep path
    then path +:+ b else path +:+ "/" +:+ b.
Proof. unfold Py.path_join2. by intros ->. Qed.

End Paths.

Section Store.
Context {value : Type} `{!Json value}.

(** C7: [__getitem__] raises [KeyError] when the key has no file; when the
    file does not parse as JSON it removes the file and raises, after which
    the key is not in the cache any more and a second read raises
    [KeyError]. *)
Theorem getitem_absent_or_corrupt (root key : string)
    (fs : gmap string string) :
  (fs !! OutputCache._path root key = None →
   OutputCache.__getitem__ (value:=value) root key fs
   = (Raise (KeyError key), fs))
  ∧ (∀ text,
       fs !! OutputCache._path root key = Some text →
       json_load (value:=value) text = None →
       let fs' := delete (OutputCache._path root key) fs in
       OutputCache.__getitem__ (value:=value) root key fs
       = (Raise JSONDecodeError, fs')
       ∧ OutputCache.__contains__ root key fs' = false
       ∧ OutputCache.__getitem__ (value:=value) root key fs'
         = (Raise (KeyError key), fs')).
Proof.
  split.
  - intros Hnone. unfold OutputCache.__getitem__, OutputCache.__contains__.
    rewrite Hnone. rewrite bool_decide_false; [done|].
    by intros [? ?].
  - intros text Hsome Hbad fs'.
    assert (OutputCache.__contains__ root key fs' = false) as Hgone.
    { unfold OutputCache.__contains__, fs'. rewrite lookup_delete_eq.
      apply bool_decide_false. by intros [? ?]. }
    split; [|split; [done|]].
    + unfold OutputCache.__getitem__, OutputCache.__contains__.
      rewrite Hsome, Hbad. by rewrite bool_decide_true.
    + unfold OutputCache.__getitem__. by rewrite Hgone.
Qed.

End Store.

Lemma getitem_absent_or_corrupt_witness :
  OutputCache.__getitem__ (value:=list unit) "root" "ab1234" ∅
  = (Raise (KeyError "ab1234"), ∅)
  ∧ OutputCache.__contains__ "root" "ab1234"
      (delete "root/ab/1234.json" {["root/ab/1234.json" := "[null,"]}) = false.
Proof.
  split.
  - apply (getitem_absent_or_corrupt (value:=list unit) "root" "ab1234" ∅).
    reflexivity.
  - destruct (getitem_absent_or_corrupt (value:=list unit) "root" "ab1234"
                {["root/ab/1234.json" := "[null,"]}) as [_ H].
    destruct (H "[null," eq_refl eq_refl) as (_ & Hgone & _).
    exact Hgone.
Defined.


(** ** One pass and the next *)
Section Passes.
Context {output : Type} `{!Json (list output)} `{!Engine output}.
Implicit Types (me : self) (c : cell output) (cs : list (cell output)).
Implicit Types (s : state) (fs : gmap string string).

Lemma getitem_Ok root key fs (v : list output) fs' :
  OutputCache.__getitem__ root key fs = (Ok v, fs') →
  fs' = fs ∧ ∃ text, fs !! OutputCache._path root key = Some text
                     ∧ json_load text = Some v.
Proof.
  unfold OutputCache.__getitem__. intros H.
  repeat case_match; simplify_eq. eauto.
Qed.

Lemma getitem_hit root key fs text (v : list output) :
  fs !! OutputCache._path root key = Some text →
  json_load text = Some v →
  OutputCache.__contains__ root key fs = true
  ∧ OutputCache.__getitem__ root key fs = (Ok v, fs).
Proof.
  intros Hl Hv. unfold OutputCache.__getitem__, OutputCache.__contains__.
  rewrite Hl, Hv. by rewrite bool_decide_true.
Qed.

(** Running a cell leaves the cache files alone. *)
Lemma run_cell_fs me c i s r s' :
  run_cell me c i s = (r, s') → fs s' = fs s.
Proof.
  unfold run_cell, finally, setup_cell_source, super_run_cell, bind, emit,
    on_env, ret, raise, stop.
  intros H. repeat (case_match; simplify_eq/=); done.
Qed.

(** A cell that went through [preprocess_cell] is a hit from then on. *)
Lemma preprocess_cell_cached `{!JsonRoundTrip (list output)} me c i s c' s' :
  preprocess_cell me c i s = (Ok c', s') →
  fs s ⊆ fs s' ∧ Spec.cell_hit me (fs s') i c c'.
Proof.
  unfold preprocess_cell, Spec.cell_hit.
  destruct (is_code c); cbn [negb].
  2:{ unfold ret. intros [= <- <-]. split; reflexivity. }
  destruct (OutputCache.__contains__ _ _ (fs s)) eqn:Hin.
  - unfold bind, emit, on_fs, ret. cbn [fs env trace].
    destruct (OutputCache.__getitem__ _ _ (fs s)) as [[v|e] fs1] eqn:Hget;
      [|discriminate].
    intros [= <- <-]. cbn [fs env trace].
    apply getitem_Ok in Hget as (-> & text & Hl & Hv).
    split; [reflexivity|]. exists text, v. auto.
  - unfold bind at 1.
    destruct (run_cell me c i s) as [[outs|e] s1] eqn:Hrun; [|discriminate].
    apply run_cell_fs in Hrun.
    unfold OutputCache.__contains__ in Hin.
    apply bool_decide_eq_false in Hin.
    rewrite <- eq_None_not_Some in Hin.
    unfold bind, on_fs, OutputCache.__setitem__, ret. cbn [fs env trace].
    rewrite Hrun.
    generalize dependent (OutputCache._path (cache_directory (config me))
                            (cache_key me (source c) i)).
    intros p Hin Heq. injection Heq as <- <-. cbn [fs env trace].
    split; [by apply insert_subseteq|].
    eexists _, outs. rewrite lookup_insert_eq.
    split; [reflexivity|]. split; [apply json_load_dump|reflexivity].
Qed.
Lemma cell_hit_weaken me fs fs' i c c' :
  fs ⊆ fs' → Spec.cell_hit me fs i c c' → Spec.cell_hit me fs' i c c'.
Proof.
  unfold Spec.cell_hit. intros Hsub. destruct (is_code c); [|done].
  intros (text & outs & Hl & Hrest). exists text, outs.
  split; [|done]. by eapply lookup_weaken.
Qed.

Lemma cells_hit_weaken me fs fs' i cs cs' :
  fs ⊆ fs' → Spec.cells_hit me fs i cs cs' → Spec.cells_hit me fs' i cs cs'.
Proof.
  intros Hsub. revert i cs'.
  induction cs as [|c cs IH]; intros i [|c' cs']; simpl; try done.
  intros [Hc Hcs]. split; [by eapply cell_hit_weaken|by apply IH].
Qed.

(** After a pass that went through, every cell is a hit. *)
Lemma preprocess_cells_cached `{!JsonRoundTrip (list output)} me i cs s cs' s' :
  preprocess_cells me i cs s = (Ok cs', s') →
  fs s ⊆ fs s' ∧ Spec.cells_hit me (fs s') i cs cs'.
Proof.
  revert i s cs' s'.
  induction cs as [|c cs IH]; intros i s cs' s'; simpl.
  - by intros [= <- <-].
  - unfold bind at 1.
    destruct (preprocess_cell me c i s) as [[c1|e] s1] eqn:Hc; [|done].
    unfold bind at 1.
    destruct (preprocess_cells me (S i) cs s1) as [[cs1|e] s2] eqn:Hcs; [|done].
    intros [= <- <-].
    apply preprocess_cell_cached in Hc as [Hsub1 Hhit].
    apply IH in Hcs as [Hsub2 Hhits].
    split; [by etrans|]. simpl.
    split; [by eapply cell_hit_weaken|done].
Qed.

(** When every cell is a hit, the pass reads the cache and nothing else:
    the files and the world stay as they are. *)
Lemma preprocess_cells_replay me i cs cs' s :
  Spec.cells_hit me (fs s) i cs cs' →
  preprocess_cells me i cs s
  = (Ok cs', State (fs s) (env s) (trace s ++ Spec.hit_events me i cs)).
Proof.
  revert i cs' s.
  induction cs as [|c cs IH]; intros i [|c' cs'] s; simpl; try done.
  - intros _. rewrite app_nil_r. by destruct s.
  - intros [Hc Hcs]. unfold bind at 1.
    assert (preprocess_cell me c i s
            = (Ok c', State (fs s) (env s)
                        (trace s ++ if is_code c
                           then [CacheHit i (cache_key me (source c) i)]
                           else []))) as ->.
    { unfold preprocess_cell. unfold Spec.cell_hit in Hc.
      destruct (is_code c); simpl.
      - destruct Hc as (text & outs & Hl & Hv & ->).
        destruct (getitem_hit _ _ _ _ _ Hl Hv) as [-> Hget].
        unfold bind, emit, on_fs, ret. simpl. by rewrite Hget.
      - subst c'. rewrite app_nil_r. by destruct s. }
    unfold bind at 1.
    rewrite (IH (S i) cs' (State (fs s) (env s) _) Hcs). simpl.
    by rewrite <- (assoc_L (++)).
Qed.

(** The cell a hit produces is again a hit, and produces itself. *)
Lemma cell_hit_again me fs i c c' :
  Spec.cell_hit me fs i c c' →
  Spec.cell_hit me fs i c' c'
  ∧ is_code c' = is_code c ∧ source c' = source c.
Proof.
  unfold Spec.cell_hit. destruct (is_code c) eqn:Hcode.
  - intros (text & outs & Hl & Hv & ->).
    assert (is_code (Cell (cell_type c) (source c) (Some outs)) = true)
      as Hc' by exact Hcode.
    rewrite Hc'. split; [|split; reflexivity].
    exists text, outs. split; [exact Hl|]. split; [exact Hv|reflexivity].
  - intros ->. rewrite Hcode. split; [reflexivity|split; reflexivity].
Qed.

Lemma cells_hit_again me fs i cs cs' :
  Spec.cells_hit me fs i cs cs' →
  Spec.cells_hit me fs i cs' cs'
  ∧ Forall2 (λ c' c, is_code c' = is_code c ∧ source c' = source c) cs' cs.
Proof.
  revert i cs'.
  induction cs as [|c cs IH]; intros i [|c' cs']; simpl; try done.
  intros [Hc Hcs]. apply cell_hit_again in Hc as (Hc & Ht & Hs).
  apply IH in Hcs as [Hcs Hall]. split; [done|]. by constructor.
Qed.

Lemma extract_setup_ext n cs cs' idx su last :
  Forall2 (λ c' c, is_code c' = is_code c ∧ source c' = source c) cs' cs →
  extract_setup n cs' idx su last = extract_setup n cs idx su last.
Proof.
  intros Hall. revert idx su last.
  induction Hall as [|c' c cs' cs [Ht Hs] _ IH]; intros idx su last; [done|].
  simpl. rewrite Ht, Hs. by rewrite IH.
Qed.

Lemma hit_events_ext me i cs cs' :
  Forall2 (λ c' c, is_code c' = is_code c ∧ source c' = source c) cs' cs →
  Spec.hit_events me i cs' = Spec.hit_events me i cs.
Proof.
  intros Hall. revert i.
  induction Hall as [|c' c cs' cs [Ht Hs] _ IH]; intros i; [done|].
  simpl. rewrite Ht, Hs. by rewrite IH.
Qed.

Lemma hit_events_hits me i cs :
  Forall Spec.is_hit (Spec.hit_events me i cs)
  ∧ length (Spec.hit_events me i cs) = Spec.code_cells cs.
Proof.
  revert i. induction cs as [|c cs IH]; intros i; [by split|].
  destruct (IH (S i)) as [Hall Hlen]. unfold Spec.code_cells in *.
  simpl. rewrite filter_cons. destruct (is_code c) eqn:Hc.
  - rewrite decide_True by done. simpl. split; [|by rewrite Hlen].
    constructor; [by eexists _, _|done].
  - rewrite decide_False by done. simpl. by split.
Qed.

(** C5: when a pass over a notebook went through, a second pass against
    the store it left, over the notebook as it came out or as it went in,
    returns the notebook of the first pass (the same outputs on every
    cell), leaves the files and the world of the engine as they were, and
    logs one cache hit per code cell and nothing else: the engine is not
    invoked. *)
Theorem second_pass_all_hits `{!JsonRoundTrip (list output)}
    cfg (nb nb1 : notebook output) res res1 s s1 :
  preprocess cfg nb res s = (Ok (nb1, res1), s1) →
  ∃ hits,
    let s2 := State (fs s1) (env s1) (trace s1 ++ hits) in
    preprocess cfg nb1 res1 s1 = (Ok (nb1, res1), s2)
    ∧ preprocess cfg nb res s1 = (Ok (nb1, res1), s2)
    ∧ Forall Spec.is_hit hits
    ∧ length hits = Spec.code_cells (cells nb).
Proof.
  unfold preprocess at 1.
  destruct (configure cfg nb res) as [me|e] eqn:Hcfg; [|done].
  unfold bind at 1.
  destruct (preprocess_cells me 0 (cells nb) s) as [[cs1|e] s'] eqn:Hcs;
    [|done].
  intros [= <- <- <-].
  apply preprocess_cells_cached in Hcs as [_ Hhits].
  destruct (cells_hit_again _ _ _ _ _ Hhits) as [Hhits1 Hall].
  exists (Spec.hit_events me 0 (cells nb)). simpl.
  destruct (hit_events_hits me 0 (cells nb)) as [Hf Hl].
  split; [|split; [|done]].
  - unfold preprocess.
    assert (configure cfg (Notebook (kernelspec_name nb) cs1) res = Ok me)
      as ->.
    { unfold configure in *. simpl.
      by rewrite (extract_setup_ext _ _ _ _ _ _ Hall). }
    unfold bind. simpl.
    rewrite (preprocess_cells_replay _ _ _ _ _ Hhits1).
    by rewrite (hit_events_ext _ _ _ _ Hall).
  - unfold preprocess. rewrite Hcfg. unfold bind.
    by rewrite (preprocess_cells_replay _ _ _ _ _ Hhits).
Qed.

End Passes.

(** ** What a miss replays *)
Section Replay.
Context {output : Type} `{!Json (list output)} `{!Engine output}.
Implicit Types (me : self) (c : cell output) (s : state).

(** [run_cell] with the source of its setup cell known. *)
Lemma run_cell_trace me c i prefix s outs s' :
  (∀ s0, setup_cell_source me c i s0 = (Ok prefix, s0)) →
  run_cell me c i s = (Ok outs, s') →
  trace s'
  = trace s ++ Executing i (kernel_name me)
      :: (if Py.truthy prefix then [Ran prefix] else [])
      ++ [Ran (source c)].
Proof.
  intros Hpre. unfold run_cell, finally, bind at 1 2 3.
  unfold emit at 1. unfold on_env at 1. cbn [fs env trace].
  destruct (start_new_kernel _ _ _) as [[[]|e] w]; [|discriminate].
  rewrite Hpre. unfold super_run_cell, bind, emit, on_env, ret, stop.
  cbn [fs env trace].
  destruct (Py.truthy prefix); cbn [fs env trace].
  - destruct (execute prefix w) as [[o|e] w1]; cbn [fs env trace];
      [|discriminate].
    destruct (execute (source c) w1) as [[o'|e] w2]; [|discriminate].
    intros [= <- <-]. cbn [trace].
    by rewrite <- !(assoc_L (++)).
  - destruct (execute (source c) w) as [[o'|e] w2]; [|discriminate].
    intros [= <- <-]. cbn [trace].
    by rewrite <- !(assoc_L (++)).
Qed.

(** The two rules of [run_cell] for the source it replays before a code
    cell: the whole Setup Set, joined, when the cell's index is at or past
    the setup boundary index; for a cell before the boundary, the join of
    the Setup Set entries that precede the first entry equal to the cell's
    source. Before the boundary these entries are sources of code cells
    that come before the cell in the notebook, and the cell's own source
    is not among them. When the run goes through, the prefix (unless it is
    empty) and then the cell are what was executed. *)
Theorem replay_prefix cfg (nb : notebook output) res me i c :
  configure cfg nb res = Ok me →
  cells nb !! i = Some c → is_code c = true →
  ∃ prefix,
    (∀ s, setup_cell_source me c i s = (Ok prefix, s))
    ∧ ((end_setup_index me ≤ i)%nat →
       prefix = Py.join Py.newline (setup me))
    ∧ ((i < end_setup_index me)%nat →
       ∃ idx, Py.index (source c) (setup me) = Some idx
         ∧ prefix = Py.join Py.newline (take idx (setup me))
         ∧ (idx ≤ length (Spec.code_sources (take i (cells nb))))%nat
         ∧ take idx (setup me)
           = take idx (Spec.code_sources (take i (cells nb)))
         ∧ source c ∉ take idx (setup me))
    ∧ (∀ s outs s',
         run_cell me c i s = (Ok outs, s') →
         trace s'
         = trace s ++ Executing i (kernel_name me)
             :: (if Py.truthy prefix then [Ran prefix] else [])
             ++ [Ran (source c)]).
Proof.
  intros Hcfg Hc Hcode.
  destruct (Nat.leb_spec (end_setup_index me) i) as [Hge|Hlt].
  - exists (Py.join Py.newline (setup me)).
    assert (∀ s, setup_cell_source me c i s
                 = (Ok (Py.join Py.newline (setup me)), s)) as Hpre.
    { intros s. unfold setup_cell_source.
      by destruct (Nat.leb_spec (end_setup_index me) i); [|lia]. }
    split; [done|]. split; [done|]. split; [lia|].
    intros s outs s'. by apply run_cell_trace.
  - destruct (in_setup_index _ _ _ _ _ _ Hcfg Hc Hcode Hlt)
      as (idx & Hidx & Hle & Htake & Hnot).
    exists (Py.join Py.newline (take idx (setup me))).
    assert (∀ s, setup_cell_source me c i s
                 = (Ok (Py.join Py.newline (take idx (setup me))), s))
      as Hpre.
    { intros s. unfold setup_cell_source.
      destruct (Nat.leb_spec (end_setup_index me) i); [lia|].
      by rewrite Hidx. }
    split; [done|]. split; [lia|]. split; [by eauto 10|].
    intros s outs s'. by apply run_cell_trace.
Qed.

End Replay.

(** C6: a setup cell that is the last cell of the notebook has the setup
    boundary index as its own index. On a miss [run_cell] then takes its
    first rule and replays the whole Setup Set, which holds the cell's own
    source: the cell is run twice in the kernel, once as its replay prefix
    and once as itself. *)
Theorem last_setup_cell_replays_itself :
  ∃ me,
    configure default_traits (Example.nb_of [Example.code "x = 1"])
      Example.no_resources = Ok me
    ∧ setup me = ["x = 1"] ∧ end_setup_index me = 0%nat
    ∧ (∀ s : state,
         setup_cell_source me (Example.code "x = 1") 0 s = (Ok "x = 1", s))
    ∧ run_cell me (Example.code "x = 1") 0 Example.fresh
      = (Ok [()],
         @State unit Example.engine ∅ 2%nat
           [Executing 0 "python"; Ran "x = 1"; Ran "x = 1"]).
Proof. eexists. repeat split. Qed.

(** ** The embedding at work *)

(** The digest is the SHA-1 of the FIPS 180 test vectors. *)
Example sha1_empty :
  SHA1.sha1_hex EmptyString = "da39a3ee5e6b4b0d3255bfef95601890afd80709".
Proof. vm_compute. reflexivity. Qed.

Example sha1_abc :
  SHA1.sha1_hex "abc" = "a9993e364706816aba3e25717850c26c9cd0d89d".
Proof. vm_compute. reflexivity. Qed.

Example sha1_two_blocks :
  SHA1.sha1_hex "abcdbcdecdefdefgefghfghighijhijkijkljklmklmnlmnomnopnopq"
  = "84983e441c3bd26ebaae4aa1f95129e5e54670f1".
Proof. vm_compute. reflexivity. Qed.

Lemma load_dump_rest (l : list unit) :
  Example.load_rest (Example.dump_rest l) = Some l.
Proof.
  induction l as [|[] l IH]; [reflexivity|].
  change (Example.load_rest (Example.dump_rest (() :: l)))
    with (cons () <$> Example.load_rest (Example.dump_rest l)).
  by rewrite IH.
Qed.

#[export] Instance example_roundtrip : JsonRoundTrip (list unit).
Proof.
  intros [|[] l]; [reflexivity|].
  change (json_load (json_dump (() :: l)))
    with (cons () <$> Example.load_rest (Example.dump_rest l)).
  by rewrite load_dump_rest.
Qed.

Lemma setup_lookup_never_fails_witness :
  "x = 1" ∈ ["x = 1"]
  ∧ ∃ idx, Py.index "x = 1" ["x = 1"] = Some idx
      ∧ ∀ s : state,
          setup_cell_source
            (Self default_traits "python" None ["x = 1"] 1)
            (Example.code "x = 1") 0 s
          = (Ok (Py.join Py.newline (take idx ["x = 1"])), s).
Proof.
  exact (setup_lookup_never_fails default_traits
           (Example.nb_of [Example.code "x = 1"; Example.code "print(x)"])
           Example.no_resources
           (Self default_traits "python" None ["x = 1"] 1)
           0 (Example.code "x = 1") eq_refl eq_refl eq_refl (le_n 1)).
Defined.

Lemma replay_prefix_witness :
  setup_cell_source
    (Self (Traits "/tmp/nb_output_cache" 2) "python" None
       ["import os"; "x = 1"] 2)
    (Example.code "x = 1") 1 Example.fresh
  = (Ok "import os", Example.fresh)
  ∧ trace (run_cell
             (Self (Traits "/tmp/nb_output_cache" 2) "python" None
                ["import os"; "x = 1"] 2)
             (Example.code "x = 1") 1 Example.fresh).2
    = [Executing 1 "python"; Ran "import os"; Ran "x = 1"].
Proof.
  destruct (replay_prefix (Traits "/tmp/nb_output_cache" 2)
              (Example.nb_of [Example.code "import os"; Example.code "x = 1";
                              Example.code "print(x)"])
              Example.no_resources
              (Self (Traits "/tmp/nb_output_cache" 2) "python" None
                 ["import os"; "x = 1"] 2)
              1 (Example.code "x = 1") eq_refl eq_refl eq_refl)
    as (prefix & Hpre & _ & Hlt & Htrace).
  destruct (Hlt (le_n 2)) as (idx & Hidx & -> & _).
  injection Hidx as <-. split; [apply Hpre|].
  exact (Htrace Example.fresh [()] _ eq_refl).
Defined.

Lemma second_pass_all_hits_witness :
  ∃ nb1 res1 (s1 : state) hits,
    preprocess default_traits
      (Example.nb_of [Example.code "x = 1"; Example.markdown "# Notes";
                      Example.code "print(x)"])
      Example.no_resources Example.fresh = (Ok (nb1, res1), s1)
    ∧ preprocess default_traits nb1 res1 s1
      = (Ok (nb1, res1), State (fs s1) (env s1) (trace s1 ++ hits))
    ∧ length hits = 2%nat.
Proof.
  destruct (preprocess default_traits
              (Example.nb_of [Example.code "x = 1"; Example.markdown "# Notes";
                              Example.code "print(x)"])
              Example.no_resources Example.fresh)
    as [[[nb1 res1]|e] s1] eqn:Hfirst.
  - destruct (second_pass_all_hits _ _ _ _ _ _ _ Hfirst)
      as (hits & Hsecond & _ & _ & Hlen).
    exists nb1, res1, s1, hits. split; [reflexivity|].
    split; [exact Hsecond|exact Hlen].
  - vm_compute in Hfirst. discriminate Hfirst.
Defined.

(** * Further properties of the code *)

(** ** The setup scan *)
Section Scan.
Context {output : Type}.
Implicit Types (cs : list (cell output)) (c : cell output).

Lemma extract_setup_shape n cs idx su last su' last' :
  extract_setup n cs idx su last = (su', last') →
  su' = su ++ take (Z.to_nat n - length su) (Spec.code_sources cs).
Proof.
  revert idx su last.
  induction cs as [|c cs IH]; intros idx su last He; simpl in He.
  - injection He as <- _. unfold Spec.code_sources. simpl.
    by rewrite take_nil, app_nil_r.
  - destruct (Z.geb_spec (Z.of_nat (length su)) n) as [Hge|Hlt].
    + injection He as <- _.
      replace (Z.to_nat n - length su)%nat with O by lia.
      by rewrite take_0, app_nil_r.
    + apply IH in He. rewrite code_sources_cons.
      destruct (is_code c); simpl; [|done].
      rewrite He, length_app. simpl.
      replace (Z.to_nat n - length su)%nat
        with (S (Z.to_nat n - (length su + 1))) by lia.
      simpl. by rewrite <- (assoc_L (++)).
Qed.

(** The two ways the scan ends: at the first cell it meets with the count
    satisfied, or with the last cell of the notebook. *)
Lemma extract_setup_stop n cs idx su last su' last' :
  extract_setup n cs idx su last = (su', last') →
  (∃ k, (k < length cs)%nat ∧ last' = Some (idx + k)%nat
        ∧ su' = su ++ Spec.code_sources (take k cs)
        ∧ n ≤ Z.of_nat (length su'))
  ∨ (su' = su ++ Spec.code_sources cs
     ∧ last' = match cs with
               | [] => last
               | _ => Some (idx + length cs - 1)%nat
               end).
Proof.
  revert idx su last.
  induction cs as [|c cs IH]; intros idx su last He; simpl in He.
  - injection He as <- <-. right. unfold Spec.code_sources. simpl.
    by rewrite app_nil_r.
  - destruct (Z.geb_spec (Z.of_nat (length su)) n) as [Hge|Hlt].
    + injection He as <- <-. left. exists O. simpl.
      unfold Spec.code_sources. simpl. rewrite app_nil_r, Nat.add_0_r.
      repeat split; [lia|lia].
    + apply IH in He as [(k & Hk & -> & -> & Hn)|[-> ->]].
      * left. exists (S k). simpl. rewrite code_sources_cons.
        split; [lia|]. split; [f_equal; lia|].
        split; [|done]. by destruct (is_code c); rewrite <- ?(assoc_L (++)).
      * right. rewrite code_sources_cons.
        split; [by destruct (is_code c); rewrite <- ?(assoc_L (++))|].
        destruct cs; simpl; f_equal; lia.
Qed.

Lemma setup_is_first_code_cells_aux cfg (nb : notebook output) res me :
  configure cfg nb res = Ok me →
  setup me
  = take (Z.to_nat (setup_cells cfg)) (Spec.code_sources (cells nb)).
Proof.
  intros [He _]%configure_inv.
  apply extract_setup_shape in He. simpl in He.
  by rewrite Nat.sub_0_r in He.
Qed.

(** X1: the Setup Set is made of the sources of the first [setup_cells]
    code cells of the notebook, in order: all of them when there are
    fewer, none when [setup_cells] is zero or negative. *)
Theorem setup_is_first_code_cells cfg (nb : notebook output) res me :
  configure cfg nb res = Ok me →
  setup me
  = take (Z.to_nat (setup_cells cfg)) (Spec.code_sources (cells nb)).
Proof.
  intros [He _]%configure_inv.
  apply extract_setup_shape in He. simpl in He.
  by rewrite Nat.sub_0_r in He.
Qed.

(** X2: the setup boundary index is the index of a cell of the notebook.
    Either the scan stopped there with the count satisfied, and the Setup
    Set is made of the code cells before it; or it is the last cell of the
    notebook, and the Setup Set is made of all code cells, that one
    included. *)
Theorem boundary_is_a_cell cfg (nb : notebook output) res me :
  configure cfg nb res = Ok me →
  (end_setup_index me < length (cells nb))%nat
  ∧ ((setup me = Spec.code_sources (take (end_setup_index me) (cells nb))
      ∧ setup_cells cfg ≤ Z.of_nat (length (setup me)))
     ∨ (S (end_setup_index me) = length (cells nb)
        ∧ setup me = Spec.code_sources (cells nb))).
Proof.
  intros [He _]%configure_inv.
  apply extract_setup_stop in He as [(k & Hk & [= ->] & -> & Hn)|[-> Hl]].
  - simpl in *. split; [done|]. left. by split.
  - destruct (cells nb) as [|c cs]; [done|].
    injection Hl as ->. simpl. split; [lia|]. right. split; [lia|done].
Qed.

(** X3: the attributes are set up for every notebook that has a cell, and
    only for those. *)
Theorem configure_iff_nonempty cfg (nb : notebook output) res :
  (∃ me, configure cfg nb res = Ok me) ↔ cells nb ≠ [].
Proof.
  unfold configure.
  destruct (extract_setup _ _ _ _ _) as [su last] eqn:He.
  apply extract_setup_stop in He as [(k & Hk & -> & _)|[_ ->]].
  - split; [|by eauto]. intros _ Hnil. rewrite Hnil in Hk. simpl in Hk. lia.
  - destruct (cells nb) as [|c cs]; [|by split; eauto].
    split; [by intros [me ?]|done].
Qed.

End Scan.

Lemma setup_is_first_code_cells_witness :
  ["import os"; "x = 1"]
  = take (Z.to_nat 2)
      (Spec.code_sources
         [Example.code "import os"; Example.markdown "# Notes";
          Example.code "x = 1"; Example.code "print(x)"]).
Proof.
  exact (setup_is_first_code_cells (Traits "/tmp/nb_output_cache" 2)
           (Example.nb_of
              [Example.code "import os"; Example.markdown "# Notes";
               Example.code "x = 1"; Example.code "print(x)"])
           Example.no_resources
           (Self (Traits "/tmp/nb_output_cache" 2) "python" None
              ["import os"; "x = 1"] 3)
           eq_refl).
Defined.

Lemma boundary_is_a_cell_witness :
  (0 < 1)%nat
  ∧ ((["x = 1"] = Spec.code_sources (take 0 [Example.code "x = 1"])
      ∧ 1 ≤ Z.of_nat 1)
     ∨ (1%nat = 1%nat ∧ ["x = 1"] = Spec.code_sources [Example.code "x = 1"])).
Proof.
  exact (boundary_is_a_cell default_traits
           (Example.nb_of [Example.code "x = 1"]) Example.no_resources
           (Self default_traits "python" None ["x = 1"] 0) eq_refl).
Defined.

(** ** The store *)
Section StoreFacts.

Lemma is_hex_not_sep c :
  Shape.is_hex c = true → bool_decide (c = "/"%char) = false.
Proof.
  intros H. apply bool_decide_eq_false_2. intros ->.
  vm_compute in H. discriminate H.
Qed.

Lemma is_hex_not_continuation c :
  Shape.is_hex c = true → Py.is_continuation c = false.
Proof.
  unfold Shape.is_hex, Py.is_continuation.
  generalize (N_of_ascii c). intros n H. cbv zeta in *.
  destruct (N.leb_spec 128 n) as [Hlo|]; [|done].
  destruct (N.ltb_spec n 192) as [Hhi|]; [|done].
  apply orb_prop in H as [H|H]; apply andb_prop in H as [_ H];
    apply N.leb_le in H; lia.
Qed.

Lemma slice_to_0_hex s :
  Shape.all_hex s = true → Py.slice_to 0 s = EmptyString.
Proof.
  destruct s as [|c s]; [done|]. cbn [Shape.all_hex Py.slice_to].
  intros [Hc _]%andb_prop. by rewrite is_hex_not_continuation.
Qed.

Lemma slice_from_0_hex s :
  Shape.all_hex s = true → Py.slice_from 0 s = s.
Proof.
  destruct s as [|c s]; [done|]. cbn [Shape.all_hex Py.slice_from].
  intros [Hc _]%andb_prop. by rewrite is_hex_not_continuation.
Qed.

(** A key of hexadecimal digits is cut after its second digit. *)
Lemma hex_key_cut k :
  Shape.hex_key k →
  ∃ c0 c1 rest, k = String c0 (String c1 rest)
    ∧ Py.slice_to 2 k = String c0 (String c1 EmptyString)
    ∧ Py.slice_from 2 k = rest
    ∧ bool_decide (c0 = "/"%char) = false
    ∧ bool_decide (c1 = "/"%char) = false
    ∧ Py.startswith_sep (rest +:+ ".json") = false.
Proof.
  intros [Hhex Hlen].
  destruct k as [|c0 [|c1 rest]]; [simpl in Hlen; lia..|].
  cbn [Shape.all_hex] in Hhex.
  apply andb_prop in Hhex as [H0 Hhex]. apply andb_prop in Hhex as [H1 H2].
  exists c0, c1, rest. split; [done|].
  cbn [Py.slice_to Py.slice_from].
  rewrite !is_hex_not_continuation by done.
  rewrite slice_to_0_hex, slice_from_0_hex by done.
  split; [done|]. split; [done|].
  split; [by apply is_hex_not_sep|]. split; [by apply is_hex_not_sep|].
  destruct rest as [|c2 rest]; [done|]. cbn [Shape.all_hex] in H2.
  apply andb_prop in H2 as [H2 _].
  rewrite append_cons. cbn [Py.startswith_sep]. by apply is_hex_not_sep.
Qed.

Lemma hex_key_path root k :
  Shape.hex_key k →
  OutputCache._path root k = Shape.root_prefix root +:+ Spec.shard_name k.
Proof.
  intros (c0 & c1 & rest & _ & Hto & Hfrom & H0 & H1 & Hrest)%hex_key_cut.
  unfold OutputCache._path, Py.path_join, Spec.shard_name, Shape.root_prefix.
  cbn [fold_left]. rewrite Hto, Hfrom.
  rewrite (path_join2_relative root) by (cbn; exact H0).
  rewrite path_join2_relative by exact Hrest.
  destruct (negb (Py.truthy root) || Py.endswith_sep root).
  - rewrite truthy_append, endswith_sep_append, H1. cbn [negb orb].
    by rewrite append_assoc.
  - change ("/" +:+ String c0 (String c1 EmptyString))
      with (String "/" (String c0 (String c1 EmptyString))).
    rewrite truthy_append.
    change (String "/" (String c0 (String c1 EmptyString)))
      with ("/" +:+ String c0 (String c1 EmptyString)).
    rewrite <- append_assoc, endswith_sep_append, H1. cbn [negb orb].
    by rewrite !append_assoc.
Qed.

Lemma shard_name_inj k k' :
  Shape.hex_key k → Shape.hex_key k' →
  Spec.shard_name k = Spec.shard_name k' → k = k'.
Proof.
  intros (c0 & c1 & rest & -> & Hto & Hfrom & _)%hex_key_cut
         (d0 & d1 & rest' & -> & Hto' & Hfrom' & _)%hex_key_cut.
  unfold Spec.shard_name. rewrite Hto, Hfrom, Hto', Hfrom'.
  rewrite !append_cons. intros [= -> -> Heq].
  change (rest +:+ ".json" = rest' +:+ ".json") in Heq.
  apply append_cancel_r in Heq. by subst.
Qed.

(** C8: for every key of hexadecimal digits with at least two of them
    (every key the cache receives is a digest), the store path is the file
    [k[0:2]/k[2:].json] below the root: the root, a separator unless the
    root is empty or ends with one, the two first digits, a separator, the
    other digits and the extension. For a root that is not empty and does
    not end with a separator this is [root/k[0:2]/k[2:].json] letter for
    letter; for the key [ab1234] below [root] it is [root/ab/1234.json]. *)
Theorem digest_path_sharded (root k : string) :
  Shape.all_hex k = true → (2 ≤ String.length k)%nat →
  OutputCache._path root k = Shape.root_prefix root +:+ Spec.shard_name k
  ∧ (Shape.plain_root root →
     OutputCache._path root k = Spec.sharded_path root k)
  ∧ OutputCache._path "root" "ab1234" = "root/ab/1234.json".
Proof.
  intros Hhex Hlen.
  assert (OutputCache._path root k
          = Shape.root_prefix root +:+ Spec.shard_name k) as Hpath
    by by apply hex_key_path.
  split; [exact Hpath|]. split; [|reflexivity].
  intros [Ht He]. rewrite Hpath.
  unfold Shape.root_prefix, Spec.sharded_path, Spec.shard_name.
  rewrite Ht, He. cbn [negb orb]. by rewrite append_assoc.
Qed.

End StoreFacts.

Lemma digest_path_sharded_witness :
  OutputCache._path "/tmp/nb_output_cache"
    "da39a3ee5e6b4b0d3255bfef95601890afd80709"
  = "/tmp/nb_output_cache/da/39a3ee5e6b4b0d3255bfef95601890afd80709.json".
Proof.
  destruct (digest_path_sharded "/tmp/nb_output_cache"
              "da39a3ee5e6b4b0d3255bfef95601890afd80709") as (_ & H & _).
  - reflexivity.
  - simpl. lia.
  - exact (H (conj eq_refl eq_refl)).
Defined.

Section StoreOps.
Context {value : Type} `{!Json value}.

(** X4: what [__setitem__] writes, [__getitem__] reads back, whatever the
    file held before: the key is in the cache and its value is the one
    written, provided a dumped value loads back. *)
Theorem setitem_getitem `{!JsonRoundTrip value} (root key : string)
    (v : value) (fs : gmap string string) :
  let fs' := (OutputCache.__setitem__ root key v fs).2 in
  OutputCache.__contains__ root key fs' = true
  ∧ OutputCache.__getitem__ root key fs' = (Ok v, fs').
Proof.
  unfold OutputCache.__setitem__, OutputCache.__getitem__,
    OutputCache.__contains__. cbn [snd].
  rewrite lookup_insert_eq, json_load_dump.
  by rewrite bool_decide_true.
Qed.

(** X5: two different keys of hexadecimal digits, with two digits at
    least (two digests), are kept in different files, so writing under one
    key changes neither whether the other is in the cache nor what reading
    it returns. *)
Theorem distinct_keys_distinct_files (root k k' : string) :
  Shape.hex_key k → Shape.hex_key k' → k ≠ k' →
  OutputCache._path root k ≠ OutputCache._path root k'
  ∧ ∀ (v : value) (fs : gmap string string),
      let fs' := (OutputCache.__setitem__ root k v fs).2 in
      OutputCache.__contains__ root k' fs'
      = OutputCache.__contains__ root k' fs
      ∧ (OutputCache.__getitem__ (value:=value) root k' fs').1
        = (OutputCache.__getitem__ (value:=value) root k' fs).1.
Proof.
  intros Hk Hk' Hne.
  assert (OutputCache._path root k ≠ OutputCache._path root k') as Hp.
  { rewrite !hex_key_path by done. intros Heq.
    apply (inj (String.app (Shape.root_prefix root))) in Heq.
    by apply shard_name_inj in Heq. }
  split; [done|]. intros v fs.
  unfold OutputCache.__setitem__, OutputCache.__getitem__,
    OutputCache.__contains__. cbn [snd].
  rewrite lookup_insert_ne by done. split; [done|].
  destruct (bool_decide _); cbn [negb fst]; [|done].
  destruct (fs !! OutputCache._path root k') as [text|]; [|done].
  by destruct (json_load text).
Qed.

End StoreOps.

Lemma setitem_getitem_witness :
  OutputCache.__getitem__ (value:=list unit) "root" "ab1234"
    (OutputCache.__setitem__ "root" "ab1234" [(); ()]
       {["root/ab/1234.json" := "[null,"]}).2
  = (Ok [(); ()],
     (OutputCache.__setitem__ "root" "ab1234" [(); ()]
        {["root/ab/1234.json" := "[null,"]}).2).
Proof.
  apply (setitem_getitem (value:=list unit) "root" "ab1234" [(); ()]
           {["root/ab/1234.json" := "[null,"]}).
Defined.

Lemma distinct_keys_distinct_files_witness :
  OutputCache._path "root" "ab1234" ≠ OutputCache._path "root" "ab1235".
Proof.
  apply (distinct_keys_distinct_files (value:=list unit)
           "root" "ab1234" "ab1235").
  - split; [reflexivity|simpl; lia].
  - split; [reflexivity|simpl; lia].
  - discriminate.
Defined.

(** ** The shape of a cache key *)
Section KeyShape.

Lemma hex_digit_hex x : 0 ≤ x < 16 → Shape.is_hex (SHA1.hex_digit x) = true.
Proof.
  intros Hx.
  assert (x = 0 ∨ x = 1 ∨ x = 2 ∨ x = 3 ∨ x = 4 ∨ x = 5 ∨ x = 6 ∨ x = 7
          ∨ x = 8 ∨ x = 9 ∨ x = 10 ∨ x = 11 ∨ x = 12 ∨ x = 13 ∨ x = 14
          ∨ x = 15) as Hcases by lia.
  repeat (destruct Hcases as [->|Hcases]; [reflexivity|]).
  by subst.
Qed.

Lemma land_15_bound x : 0 ≤ Z.land x 15 < 16.
Proof.
  change 15 with (Z.ones 4). rewrite Z.land_ones by lia.
  apply Z.mod_pos_bound. lia.
Qed.

Lemma hex_of_shape n x acc :
  String.length (SHA1.hex_of n x acc) = (n + String.length acc)%nat
  ∧ (Shape.all_hex acc = true → Shape.all_hex (SHA1.hex_of n x acc) = true).
Proof.
  revert x acc. induction n as [|n IH]; intros x acc; [done|].
  cbn [SHA1.hex_of].
  destruct (IH (Z.shiftr x 4)
              (String (SHA1.hex_digit (Z.land x 15)) acc)) as [Hlen Hhex].
  split.
  - rewrite Hlen. cbn [String.length]. lia.
  - intros Hacc. apply Hhex. cbn [Shape.all_hex].
    by rewrite hex_digit_hex, Hacc by apply land_15_bound.
Qed.

Lemma hexdigest_shape h :
  String.length (SHA1.hexdigest h) = 40%nat
  ∧ Shape.all_hex (SHA1.hexdigest h) = true.
Proof.
  unfold SHA1.hexdigest.
  set (e := SHA1.hex_of 8 (SHA1.he h) EmptyString).
  set (d := SHA1.hex_of 8 (SHA1.hd h) e).
  set (c := SHA1.hex_of 8 (SHA1.hc h) d).
  set (b := SHA1.hex_of 8 (SHA1.hb h) c).
  destruct (hex_of_shape 8 (SHA1.he h) EmptyString) as [Le He].
  destruct (hex_of_shape 8 (SHA1.hd h) e) as [Ld Hd].
  destruct (hex_of_shape 8 (SHA1.hc h) d) as [Lc Hc].
  destruct (hex_of_shape 8 (SHA1.hb h) c) as [Lb Hb].
  destruct (hex_of_shape 8 (SHA1.ha h) b) as [La Ha].
  fold e in Le, He. fold d in Ld, Hd. fold c in Lc, Hc. fold b in Lb, Hb.
  cbn [String.length] in Le. split; [lia|].
  exact (Ha (Hb (Hc (Hd (He eq_refl))))).
Qed.

Lemma hexdigest_hex_key h : Shape.hex_key (SHA1.hexdigest h).
Proof. destruct (hexdigest_shape h) as [Hlen Hhex]. split; [done|lia]. Qed.

(** X6: every cache key is a string of 40 lower-case hexadecimal
    digits. *)
Theorem cache_key_shape (me : self) (src : string) (i : nat) :
  String.length (cache_key me src i) = 40%nat
  ∧ Shape.all_hex (cache_key me src i) = true.
Proof. unfold cache_key, SHA1.sha1_hex. apply hexdigest_shape. Qed.

(** X7: below a cache root that is not empty and does not end with a
    separator, the file of every cache key is [root/k[0:2]/k[2:].json]:
    the keys the preprocessor computes never fall outside the sharded
    layout. *)
Theorem cache_key_file (me : self) (src : string) (i : nat) (root : string) :
  Shape.plain_root root →
  OutputCache._path root (cache_key me src i)
  = Spec.sharded_path root (cache_key me src i).
Proof.
  intros [Ht He]. unfold cache_key, SHA1.sha1_hex.
  generalize (SHA1.digest (SHA1.bytes_of_string (effective_source me src i))).
  intros h. rewrite hex_key_path by apply hexdigest_hex_key.
  unfold Shape.root_prefix, Spec.sharded_path, Spec.shard_name.
  rewrite Ht, He. cbn [negb orb]. by rewrite append_assoc.
Qed.

End KeyShape.

Lemma cache_key_file_witness :
  OutputCache._path "/tmp/nb_output_cache"
    (cache_key (Self default_traits "python" None ["x = 1"] 1) "print(x)" 2)
  = Spec.sharded_path "/tmp/nb_output_cache"
      (cache_key (Self default_traits "python" None ["x = 1"] 1) "print(x)" 2).
Proof.
  apply (cache_key_file (Self default_traits "python" None ["x = 1"] 1)
           "print(x)" 2 "/tmp/nb_output_cache").
  split; reflexivity.
Defined.

(** ** One cell *)
Section OneCell.
Context {output : Type} `{!Json (list output)} `{!Engine output}.
Implicit Types (me : self) (c : cell output) (cs : list (cell output)).
Implicit Types (s : state) (r : result (cell output)).

(** The three ways through [preprocess_cell]: a cell that is not code, a
    key that has a file, a key that has none. *)
Lemma preprocess_cell_cases me c i s r s' :
  preprocess_cell me c i s = (r, s') →
  let key := cache_key me (source c) i in
  let p := OutputCache._path (cache_directory (config me)) key in
  (is_code c = false ∧ r = Ok c ∧ s' = s)
  ∨ (is_code c = true ∧ ∃ text, fs s !! p = Some text
       ∧ match json_load text with
         | Some outs =>
             r = Ok (Cell (cell_type c) (source c) (Some outs))
             ∧ s' = State (fs s) (env s) (trace s ++ [CacheHit i key])
         | None =>
             r = Raise JSONDecodeError
             ∧ s' = State (delete p (fs s)) (env s)
                      (trace s ++ [CacheHit i key])
         end)
  ∨ (is_code c = true ∧ fs s !! p = None
     ∧ ∃ ro s1, run_cell me c i s = (ro, s1) ∧ fs s1 = fs s
         ∧ match ro with
           | Ok outs =>
               r = Ok (Cell (cell_type c) (source c) (Some outs))
               ∧ s' = State (<[p := json_dump outs]> (fs s)) (env s1)
                        (trace s1)
           | Raise e => r = Raise e ∧ s' = s1
           end).
Proof.
  intros H key p. unfold preprocess_cell in H. fold key in H.
  destruct (is_code c); cbn [negb] in H.
  2:{ left. unfold ret in H. by injection H as <- <-. }
  right. unfold OutputCache.__contains__ in H. fold p in H.
  destruct (fs s !! p) as [text|] eqn:Hp.
  - left. split; [done|]. exists text. split; [done|].
    rewrite bool_decide_true in H by by eexists.
    unfold bind, emit, on_fs, ret, OutputCache.__getitem__,
      OutputCache.__contains__ in H.
    cbn [fs env trace] in H. fold p in H. rewrite Hp in H.
    rewrite bool_decide_true in H by by eexists. cbn [negb] in H.
    generalize dependent p. intros p Hp H.
    destruct (json_load text); by injection H as <- <-.
  - right. split; [done|]. split; [done|].
    rewrite bool_decide_false in H by by intros [? ?].
    unfold bind at 1 in H.
    destruct (run_cell me c i s) as [ro s1] eqn:Hrun.
    exists ro, s1. split; [done|].
    pose proof (run_cell_fs _ _ _ _ _ _ Hrun) as Hfs. split; [done|].
    destruct ro as [outs|e]; [|by injection H as <- <-].
    unfold bind, on_fs, ret, OutputCache.__setitem__ in H.
    cbn [fs env trace] in H. fold p in H. rewrite Hfs in H.
    generalize dependent p. intros p Hp H. by injection H as <- <-.
Qed.

End OneCell.

(** ** A whole pass *)
Section WholePass.
Context {output : Type} `{!Json (list output)} `{!Engine output}.
Implicit Types (me : self) (c : cell output) (cs : list (cell output)).
Implicit Types (s : state).

Lemma preprocess_cell_touched me c i s c' s' :
  preprocess_cell me c i s = (Ok c', s') → Shape.touched c c'.
Proof.
  intros H. apply preprocess_cell_cases in H.
  destruct H as [(Hc & [= ->] & _)|[(Hc & text & _ & H)|(Hc & _ & ro & so & _ & _ & H)]].
  - split; [done|]. split; [done|]. by rewrite Hc.
  - destruct (json_load text); destruct H as [[= ->] _].
    split; [done|]. split; [by rewrite Hc|by eexists].
  - destruct ro; destruct H as [[= ->] _].
    split; [done|]. split; [by rewrite Hc|by eexists].
Qed.

Lemma preprocess_cells_touched me i cs s cs' s' :
  preprocess_cells me i cs s = (Ok cs', s') → Forall2 Shape.touched cs cs'.
Proof.
  revert i s cs' s'.
  induction cs as [|c cs IH]; intros i s cs' s'; cbn [preprocess_cells].
  - unfold ret. intros [= <- _]. constructor.
  - unfold bind at 1.
    destruct (preprocess_cell me c i s) as [[c1|e] s1] eqn:Hc; [|done].
    unfold bind at 1.
    destruct (preprocess_cells me (S i) cs s1) as [[cs1|e] s2] eqn:Hcs;
      [|done].
    unfold ret. intros [= <- _].
    constructor; [by eapply preprocess_cell_touched|by eapply IH].
Qed.

(** X8: a pass that returns gives back the same resources and a notebook
    with the same kernel name and as many cells, each with the type and
    source it had; cells that are not code are unShape.touched and every code
    cell has outputs. *)
Theorem pass_preserves_text cfg (nb nb1 : notebook output) res res1 s s1 :
  preprocess cfg nb res s = (Ok (nb1, res1), s1) →
  res1 = res
  ∧ kernelspec_name nb1 = kernelspec_name nb
  ∧ Forall2 Shape.touched (cells nb) (cells nb1).
Proof.
  unfold preprocess. destruct (configure cfg nb res) as [me|e]; [|done].
  unfold bind.
  destruct (preprocess_cells me 0 (cells nb) s) as [[cs1|e] s'] eqn:Hcs;
    [|done].
  unfold ret. intros [= <- <- _]. split; [done|]. split; [done|].
  by eapply preprocess_cells_touched.
Qed.

Lemma preprocess_cell_keeps_valid me c i s r s' p text :
  preprocess_cell me c i s = (r, s') →
  fs s !! p = Some text → Shape.valid_entry (output:=output) text →
  fs s' !! p = Some text.
Proof.
  intros H Hp Hvalid. apply preprocess_cell_cases in H.
  destruct H as [(_ & _ & ->)|[(_ & text0 & Hp0 & H)|(_ & Hp0 & ro & so & _ & Hfs & H)]];
    [done|..].
  - destruct (json_load text0) eqn:Hload; destruct H as [_ ->]; [done|].
    cbn [fs]. rewrite lookup_delete_ne; [done|].
    intros <-. rewrite Hp in Hp0. injection Hp0 as <-.
    destruct Hvalid as [v Hv]. congruence.
  - destruct ro; destruct H as [_ ->]; [|by rewrite Hfs].
    cbn [fs]. rewrite lookup_insert_ne; [done|]. intros <-. congruence.
Qed.

Lemma preprocess_cells_keep_valid me i cs s r s' p text :
  preprocess_cells me i cs s = (r, s') →
  fs s !! p = Some text → Shape.valid_entry (output:=output) text →
  fs s' !! p = Some text.
Proof.
  revert i s r s'.
  induction cs as [|c cs IH]; intros i s r s'; cbn [preprocess_cells].
  - unfold ret. by intros [= _ <-].
  - unfold bind at 1.
    destruct (preprocess_cell me c i s) as [[c1|e] s1] eqn:Hc.
    + unfold bind at 1.
      destruct (preprocess_cells me (S i) cs s1) as [[cs1|e] s2] eqn:Hcs;
        unfold ret; intros [= _ <-] Hp Hvalid;
        (eapply IH; [exact Hcs| |done]);
        by eapply preprocess_cell_keeps_valid.
    + intros [= _ <-] Hp Hvalid. by eapply preprocess_cell_keeps_valid.
Qed.

(** X9: whatever the outcome of a pass, a cache file that parses as JSON
    is still there afterwards with the same content: the only files a
    pass removes are files that do not parse, and it writes only where
    there was no file. *)
Theorem valid_entries_survive cfg (nb : notebook output) res s r s' p text :
  preprocess cfg nb res s = (r, s') →
  fs s !! p = Some text → Shape.valid_entry (output:=output) text →
  fs s' !! p = Some text.
Proof.
  unfold preprocess. destruct (configure cfg nb res) as [me|e].
  - unfold bind.
    destruct (preprocess_cells me 0 (cells nb) s) as [[cs1|e] s1] eqn:Hcs;
      unfold ret; intros [= _ <-]; by eapply preprocess_cells_keep_valid.
  - unfold raise. by intros [= _ <-].
Qed.

Lemma cells_hit_lookup me (files : gmap string string) i cs cs' j c' :
  Spec.cells_hit me files i cs cs' → cs' !! j = Some c' →
  ∃ c, cs !! j = Some c ∧ Spec.cell_hit me files (i + j) c c'.
Proof.
  revert i cs' j.
  induction cs as [|c cs IH]; intros i [|c1 cs'] j; cbn [Spec.cells_hit];
    try done.
  intros [Hc Hcs]. destruct j as [|j]; cbn [lookup list_lookup].
  - intros [= <-]. exists c. by rewrite Nat.add_0_r.
  - intros Hj. destruct (IH _ _ _ Hcs Hj) as (c0 & Hc0 & Hhit).
    exists c0. split; [done|]. by rewrite <- Nat.add_succ_comm.
Qed.

(** X10: after a pass that returned, the outputs on every code cell of
    the notebook are those the cache holds under the cell's key: reading
    the key returns them. *)
Theorem outputs_agree_with_cache `{!JsonRoundTrip (list output)}
    cfg (nb nb1 : notebook output) res res1 s s1 :
  preprocess cfg nb res s = (Ok (nb1, res1), s1) →
  ∃ me, configure cfg nb res = Ok me
    ∧ ∀ i c1, cells nb1 !! i = Some c1 → is_code c1 = true →
        ∃ outs, outputs c1 = Some outs
          ∧ OutputCache.__getitem__ (cache_directory cfg)
              (cache_key me (source c1) i) (fs s1)
            = (Ok outs, fs s1).
Proof.
  unfold preprocess.
  destruct (configure cfg nb res) as [me|e] eqn:Hcfg; [|done].
  unfold bind.
  destruct (preprocess_cells me 0 (cells nb) s) as [[cs1|e] s'] eqn:Hcs;
    [|done].
  unfold ret. intros [= <- <- <-]. exists me. split; [done|].
  apply configure_inv in Hcfg as [_ Hconfig].
  apply preprocess_cells_cached in Hcs as [_ Hhits].
  intros i c1 Hi Hcode. cbn [cells] in Hi.
  destruct (cells_hit_lookup _ _ _ _ _ _ _ Hhits Hi) as (c & _ & Hhit).
  apply cell_hit_again in Hhit as (Hhit & _ & _).
  unfold Spec.cell_hit in Hhit. rewrite Hcode in Hhit.
  destruct Hhit as (text & outs & Hl & Hv & Hc1).
  exists outs. split; [by rewrite Hc1|].
  rewrite Hconfig in Hl. cbn [Nat.add] in Hl.
  by destruct (getitem_hit _ _ _ _ _ Hl Hv).
Qed.

End WholePass.

(** ** Running a cell *)
Section Running.
Context {output : Type} `{!Json (list output)} `{!Engine output}.
Implicit Types (me : self) (c : cell output) (cs : list (cell output)).
Implicit Types (s : state).

(** X11: [run_cell] never leaves a kernel running: either
    [start_new_kernel] raised, and that exception is the outcome, or the
    last thing done to the engine is the shutdown, whether the run
    returned or raised. The cache files are as before. *)
Theorem run_cell_shuts_down me c i s ro s' :
  run_cell me c i s = (ro, s') →
  fs s' = fs s
  ∧ ((∃ e, start_new_kernel (kernel_name me) (kernel_path me) (env s)
           = (Raise e, env s')
         ∧ ro = Raise e)
     ∨ (∃ w w', start_new_kernel (kernel_name me) (kernel_path me) (env s)
                = (Ok (), w)
          ∧ env s' = shutdown_kernel w')).
Proof.
  intros Hrun. split; [by eapply run_cell_fs|].
  unfold run_cell, finally, bind at 1 2 in Hrun.
  unfold emit at 1 in Hrun. unfold on_env at 1 in Hrun.
  cbn [fs env trace] in Hrun.
  destruct (start_new_kernel _ _ _) as [[[]|e] w].
  - right. exists w.
    match type of Hrun with
    | (let '(_, _) := ?m in _) = _ => destruct m as [r2 s2]
    end.
    injection Hrun as _ <-. by exists (env s2).
  - left. exists e. by injection Hrun as <- <-.
Qed.

(** X12: when the replay of the setup raises, the cell itself is not
    executed: the exception is the outcome of [run_cell], the kernel is
    shut down, and the setup source is the only source that was run. *)
Theorem replay_failure_skips_cell me c i s prefix w e w1 :
  (∀ s0, setup_cell_source me c i s0 = (Ok prefix, s0)) →
  Py.truthy prefix = true →
  start_new_kernel (kernel_name me) (kernel_path me) (env s) = (Ok (), w) →
  execute prefix w = (Raise e, w1) →
  run_cell me c i s
  = (Raise e,
     State (fs s) (shutdown_kernel w1)
       (trace s ++ [Executing i (kernel_name me); Ran prefix])).
Proof.
  intros Hpre Htruthy Hstart Hexec.
  unfold run_cell, finally, bind at 1 2 3.
  unfold emit at 1. unfold on_env at 1. cbn [fs env trace].
  rewrite Hstart, Hpre, Htruthy.
  unfold super_run_cell, bind, emit, on_env, ret, stop.
  cbn [fs env trace]. rewrite Hexec. cbn [fs env trace].
  by rewrite <- (assoc_L (++)).
Qed.

(** X13: a run that raises is not cached: on a miss, the exception of
    [run_cell] is the outcome of [preprocess_cell], no file is written,
    and the key is still absent. *)
Theorem failed_run_not_cached me c i s e s1 :
  is_code c = true →
  OutputCache.__contains__ (cache_directory (config me))
    (cache_key me (source c) i) (fs s) = false →
  run_cell me c i s = (Raise e, s1) →
  preprocess_cell me c i s = (Raise e, s1)
  ∧ fs s1 = fs s
  ∧ OutputCache.__contains__ (cache_directory (config me))
      (cache_key me (source c) i) (fs s1) = false.
Proof.
  intros Hcode Hmiss Hrun.
  pose proof (run_cell_fs _ _ _ _ _ _ Hrun) as Hfs.
  split; [|split; [done|by rewrite Hfs]].
  unfold preprocess_cell. rewrite Hcode. cbn [negb]. cbv beta zeta.
  rewrite Hmiss. unfold bind at 1. by rewrite Hrun.
Qed.

(** X14: a cache file that does not parse aborts the cell: the decode
    error is the outcome of [preprocess_cell], the file is removed, and
    the engine is not invoked, so the cell keeps the outputs it had. *)
Theorem corrupt_entry_aborts me c i s text :
  is_code c = true →
  fs s !! OutputCache._path (cache_directory (config me))
            (cache_key me (source c) i) = Some text →
  json_load (value:=list output) text = None →
  preprocess_cell me c i s
  = (Raise JSONDecodeError,
     State (delete (OutputCache._path (cache_directory (config me))
                      (cache_key me (source c) i)) (fs s))
       (env s)
       (trace s ++ [CacheHit i (cache_key me (source c) i)])).
Proof.
  intros Hcode Hfile Hbad.
  unfold preprocess_cell. rewrite Hcode. cbn [negb]. cbv beta zeta.
  unfold OutputCache.__contains__. rewrite Hfile.
  rewrite bool_decide_true by by eexists.
  unfold bind, emit, on_fs, OutputCache.__getitem__,
    OutputCache.__contains__.
  cbn [fs env trace]. rewrite Hfile.
  rewrite bool_decide_true by by eexists. cbn [negb].
  by rewrite Hbad.
Qed.

Lemma preprocess_cells_app me i cs1 cs2 s :
  preprocess_cells me i (cs1 ++ cs2) s
  = match preprocess_cells me i cs1 s with
    | (Ok r1, s1) =>
        match preprocess_cells me (i + length cs1) cs2 s1 with
        | (Ok r2, s2) => (Ok (r1 ++ r2), s2)
        | (Raise e, s2) => (Raise e, s2)
        end
    | (Raise e, s1) => (Raise e, s1)
    end.
Proof.
  revert i s. induction cs1 as [|c cs1 IH]; intros i s.
  - cbn [app preprocess_cells length]. unfold ret. rewrite Nat.add_0_r.
    by destruct (preprocess_cells me i cs2 s) as [[]].
  - cbn [app preprocess_cells length]. unfold bind at 1 3.
    destruct (preprocess_cell me c i s) as [[c1|e] s1]; [|done].
    unfold bind at 1 2. rewrite IH.
    destruct (preprocess_cells me (S i) cs1 s1) as [[r1|e] s2]; [|done].
    unfold ret.
    replace (i + S (length cs1))%nat with (S i + length cs1)%nat by lia.
    by destruct (preprocess_cells me (S i + length cs1) cs2 s2) as [[]].
Qed.

(** X15: the first cell that raises ends the pass: the cells after it are
    not visited, and the exception and the state that cell left are the
    outcome. *)
Theorem pass_aborts_at_first_failure me i before c after s done s1 e s2 :
  preprocess_cells me i before s = (Ok done, s1) →
  preprocess_cell me c (i + length before) s1 = (Raise e, s2) →
  preprocess_cells me i (before ++ c :: after) s = (Raise e, s2).
Proof.
  intros Hbefore Hc. rewrite preprocess_cells_app, Hbefore.
  cbn [preprocess_cells]. unfold bind at 1. by rewrite Hc.
Qed.

End Running.

(** ** What the hashed text tells apart *)
Section HashedText.
Context {output : Type}.
Implicit Types (me : self) (c : cell output) (cs : list (cell output)).

Lemma join_snoc sep (l : list string) (x : string) :
  l ≠ [] → Py.join sep (l ++ [x]) = Py.join sep l +:+ sep +:+ x.
Proof.
  induction l as [|y [|z l] IH]; [done|reflexivity|]. intros _.
  change (Py.join sep ((y :: z :: l) ++ [x]))
    with (y +:+ sep +:+ Py.join sep ((z :: l) ++ [x])).
  change (Py.join sep (y :: z :: l)) with (y +:+ sep +:+ Py.join sep (z :: l)).
  rewrite IH by done. by rewrite !append_assoc.
Qed.

(** X16: at one index, two different cell sources never give the same
    hashed text: the text [cache_key] digests determines the source of the
    cell. *)
Theorem effective_source_injective me (src src' : string) (i : nat) :
  effective_source me src i = effective_source me src' i → src = src'.
Proof.
  unfold effective_source.
  destruct ((end_setup_index me <? i)%nat && Py.nonempty (setup me))
    eqn:Hpast; [|done].
  apply andb_prop in Hpast as [_ Hne].
  rewrite !join_snoc by by destruct (setup me).
  intros Heq. apply (inj (String.app _)) in Heq.
  by apply (inj (String.app _)) in Heq.
Qed.

Lemma extract_setup_last_ext n cs cs' idx su su' last :
  Forall2 (λ c c', is_code c = is_code c') cs cs' →
  length su = length su' →
  (extract_setup n cs idx su last).2 = (extract_setup n cs' idx su' last).2.
Proof.
  intros Hall. revert idx su su' last.
  induction Hall as [|c c' cs cs' Hc _ IH]; intros idx su su' last Hlen;
    [done|].
  cbn [extract_setup]. rewrite <- Hlen, <- Hc.
  destruct (Z.of_nat (length su) >=? n); [done|].
  apply IH. destruct (is_code c); [|done]. rewrite !length_app. simpl. lia.
Qed.

(** X17: editing the source of one setup cell, with the other cells as
    they were, keeps the setup boundary index and changes the text hashed
    for every cell whose index is strictly greater than the boundary. *)
Theorem setup_edit_changes_hashed_text cfg (nb nb' : notebook output) res
    me me' before after c c' :
  configure cfg nb res = Ok me →
  configure cfg nb' res = Ok me' →
  cells nb = before ++ c :: after →
  cells nb' = before ++ c' :: after →
  is_code c = true → is_code c' = true → source c ≠ source c' →
  Z.of_nat (length (Spec.code_sources before)) < setup_cells cfg →
  end_setup_index me' = end_setup_index me
  ∧ ∀ src i, (end_setup_index me < i)%nat →
      effective_source me src i ≠ effective_source me' src i.
Proof.
  intros Hcfg Hcfg' Hnb Hnb' Hc Hc' Hne Hsetup.
  destruct (configure_inv _ _ _ _ Hcfg) as [He _].
  destruct (configure_inv _ _ _ _ Hcfg') as [He' _].
  assert (end_setup_index me' = end_setup_index me) as Hb.
  { pose proof (extract_setup_last_ext (setup_cells cfg) (cells nb')
                  (cells nb) O [] [] None) as Hlast.
    rewrite He, He' in Hlast. cbn [snd] in Hlast.
    assert (Some (end_setup_index me') = Some (end_setup_index me)) as Heq.
    { apply Hlast; [|done]. rewrite Hnb, Hnb'.
      apply Forall2_app; [by apply Forall_Forall2_diag, Forall_forall|].
      constructor; [congruence|].
      by apply Forall_Forall2_diag, Forall_forall. }
    by injection Heq. }
  split; [done|]. intros src i Hi.
  set (n := Z.to_nat (setup_cells cfg)).
  set (p := Spec.code_sources before).
  set (q := take (n - S (length p)) (Spec.code_sources after)).
  assert (∀ (nb0 : notebook output) c0,
            cells nb0 = before ++ c0 :: after → is_code c0 = true →
            take n (Spec.code_sources (cells nb0)) = p ++ source c0 :: q)
    as Hshape.
  { intros nb0 c0 -> Hc0.
    unfold Spec.code_sources. rewrite filter_app, fmap_app, filter_cons.
    rewrite decide_True by done. rewrite fmap_cons.
    fold (Spec.code_sources before) (Spec.code_sources after). fold p.
    rewrite take_app_ge by (subst n p; lia).
    replace (n - length p)%nat with (S (n - S (length p)))
      by (subst n p; lia).
    done. }
  eapply setup_change_past_boundary; [| |exact Hne|exact Hb|exact Hi].
  - rewrite (setup_is_first_code_cells_aux _ _ _ _ Hcfg).
    by apply Hshape.
  - rewrite (setup_is_first_code_cells_aux _ _ _ _ Hcfg').
    by apply Hshape.
Qed.

End HashedText.

(** ** The script *)
Section ScriptFacts.
Context {output : Type} `{!Json (list output)} `{!Engine output}.
Variable read : string → result (notebook output).
Implicit Types (ps : Script.process) (paths : list string).

Lemma main_body_stdout path ps ro ps' :
  Script.main_body read path ps = (ro, ps') →
  match ro with
  | Ok _ => ∃ nb, Script.stdout ps' = Script.stdout ps ++ [nb]
  | Raise _ => Script.stdout ps' = Script.stdout ps
  end.
Proof.
  unfold Script.main_body. destruct (read path) as [nb|e].
  - destruct (preprocess _ _ _ _) as [[[nb' res']|e] s'];
      intros [= <- <-]; cbn [Script.stdout]; eauto.
  - by intros [= <- <-].
Qed.

Lemma main_loop_stdout paths ps ps' :
  Script.main_loop read paths ps = (Ok (), ps') →
  ∃ written, Script.stdout ps' = Script.stdout ps ++ written
             ∧ length written = length paths.
Proof.
  revert ps. induction paths as [|path paths IH]; intros ps;
    cbn [Script.main_loop].
  - unfold ret. intros [= <-]. exists []. by rewrite app_nil_r.
  - unfold bind.
    destruct (Script.main_body read path ps) as [[[]|e] ps1] eqn:Hbody;
      [|done].
    apply main_body_stdout in Hbody as [nb Hnb].
    intros (written & Hw & Hlen)%IH. exists (nb :: written).
    rewrite Hw, Hnb, <- (assoc_L (++)). split; [done|]. simpl. lia.
Qed.

Lemma main_loop_app paths1 paths2 ps :
  Script.main_loop read (paths1 ++ paths2) ps
  = match Script.main_loop read paths1 ps with
    | (Ok _, ps1) => Script.main_loop read paths2 ps1
    | (Raise e, ps1) => (Raise e, ps1)
    end.
Proof.
  revert ps. induction paths1 as [|path paths1 IH]; intros ps; [done|].
  cbn [app Script.main_loop]. unfold bind.
  destruct (Script.main_body read path ps) as [[[]|e] ps1]; [|done].
  apply IH.
Qed.

(** X18: the script stops at the first notebook that cannot be read or
    whose processing raises: the exception is its outcome, one notebook
    has been written to standard output for each argument before that
    one, in order after what was there, and none for it or for the
    arguments after it. *)
Theorem main_stops_at_first_failure before path after ps ps1 e ps2 :
  Script.main_loop read before ps = (Ok (), ps1) →
  Script.main_body read path ps1 = (Raise e, ps2) →
  Script.main_loop read (before ++ path :: after) ps = (Raise e, ps2)
  ∧ ∃ written, Script.stdout ps2 = Script.stdout ps ++ written
               ∧ length written = length before.
Proof.
  intros Hbefore Hbody. split.
  - rewrite main_loop_app, Hbefore. cbn [Script.main_loop]. unfold bind.
    by rewrite Hbody.
  - apply main_loop_stdout in Hbefore as (written & Hw & Hlen).
    apply main_body_stdout in Hbody. exists written. by rewrite Hbody.
Qed.

End ScriptFacts.

Section WorkingDirectory.

Lemma upto_last_sep_none (l : list ascii) :
  Forall (λ c, Script.is_sep c = false) l → Script.upto_last_sep l = [].
Proof.
  induction 1 as [|c l Hc _ IH]; [done|].
  cbn [Script.upto_last_sep]. by rewrite Hc.
Qed.

Lemma no_sep_chars (s : string) :
  Spec.no_sep s = true →
  Forall (λ c, Script.is_sep c = false) (list_ascii_of_string s).
Proof.
  induction s as [|c s IH]; [constructor|].
  cbn [Spec.no_sep list_ascii_of_string]. intros [Hc Hs]%andb_prop.
  constructor; [by apply negb_true_iff in Hc|by apply IH].
Qed.

(** X19: the working directory handed to the kernel is never the empty
    string, and for a notebook named without a directory (no separator in
    its path) it is the current directory. *)
Theorem working_directory_of_bare_name (path : string) :
  Py.truthy (Script.working_directory path) = true
  ∧ (Spec.no_sep path = true → Script.working_directory path = ".").
Proof.
  split.
  - unfold Script.working_directory.
    by destruct (Py.truthy (Script.dirname path)) eqn:Hd.
  - intros Hsep. unfold Script.working_directory, Script.dirname.
    rewrite upto_last_sep_none; [done|].
    apply Forall_forall. intros c Hc%list_elem_of_In%in_rev.
    apply no_sep_chars in Hsep.
    rewrite Forall_forall in Hsep. by apply Hsep, list_elem_of_In.
Qed.

End WorkingDirectory.


(** ** The further properties at work *)

Lemma pass_preserves_text_witness :
  ∃ nb1 res1 (s1 : state),
    preprocess default_traits
      (Example.nb_of [Example.code "x = 1"; Example.markdown "# Notes"])
      Example.no_resources Example.fresh = (Ok (nb1, res1), s1)
    ∧ res1 = Example.no_resources
    ∧ Forall2 Shape.touched
        [Example.code "x = 1"; Example.markdown "# Notes"] (cells nb1).
Proof.
  destruct (preprocess default_traits
              (Example.nb_of [Example.code "x = 1"; Example.markdown "# Notes"])
              Example.no_resources Example.fresh)
    as [[[nb1 res1]|e] s1] eqn:Hpass.
  - destruct (pass_preserves_text _ _ _ _ _ _ _ Hpass) as (Hres & _ & Hcells).
    exists nb1, res1, s1. split; [reflexivity|]. split; [exact Hres|exact Hcells].
  - vm_compute in Hpass. discriminate Hpass.
Defined.

Lemma valid_entries_survive_witness :
  fs (preprocess default_traits
        (Example.nb_of [Example.code "x = 1"; Example.code "print(x)"])
        Example.no_resources
        (@State unit Example.engine {["/tmp/keep.json" := "[null]"]} O [])).2
    !! "/tmp/keep.json" = Some "[null]".
Proof.
  eapply (valid_entries_survive default_traits
            (Example.nb_of [Example.code "x = 1"; Example.code "print(x)"])
            Example.no_resources
            (@State unit Example.engine {["/tmp/keep.json" := "[null]"]} O [])).
  - apply surjective_pairing.
  - reflexivity.
  - exists [()]. reflexivity.
Defined.

Lemma outputs_agree_with_cache_witness :
  ∃ nb1 res1 (s1 : state) me,
    preprocess default_traits
      (Example.nb_of [Example.code "x = 1"; Example.code "print(x)"])
      Example.no_resources Example.fresh = (Ok (nb1, res1), s1)
    ∧ ∀ i c1, cells nb1 !! i = Some c1 → is_code c1 = true →
        ∃ outs, outputs c1 = Some outs
          ∧ OutputCache.__getitem__ "/tmp/nb_output_cache"
              (cache_key me (source c1) i) (fs s1)
            = (Ok outs, fs s1).
Proof.
  destruct (preprocess default_traits
              (Example.nb_of [Example.code "x = 1"; Example.code "print(x)"])
              Example.no_resources Example.fresh)
    as [[[nb1 res1]|e] s1] eqn:Hpass.
  - destruct (outputs_agree_with_cache _ _ _ _ _ _ _ Hpass) as (me & _ & Hall).
    exists nb1, res1, s1, me. split; [reflexivity|exact Hall].
  - vm_compute in Hpass. discriminate Hpass.
Defined.

Lemma run_cell_shuts_down_witness :
  fs (run_cell (Self default_traits "python" None ["x = 1"] 1)
        (Example.code "print(x)") 1 Example.fresh).2
  = fs Example.fresh.
Proof.
  exact (proj1 (run_cell_shuts_down
                  (Self default_traits "python" None ["x = 1"] 1)
                  (Example.code "print(x)") 1 Example.fresh _ _
                  (surjective_pairing _))).
Defined.

Lemma replay_failure_skips_cell_witness :
  @run_cell unit Example.failing_engine
    (Self default_traits "python" None ["x = 1"] 1)
    (Example.code "print(x)") 1 Example.fresh_failing
  = (Raise KernelError,
     @State unit Example.failing_engine ∅ 1%nat
       [Executing 1 "python"; Ran "x = 1"]).
Proof.
  exact (@replay_failure_skips_cell unit Example.failing_engine
           (Self default_traits "python" None ["x = 1"] 1)
           (Example.code "print(x)") 1 Example.fresh_failing
           "x = 1" O KernelError 1%nat
           (λ _, eq_refl) eq_refl eq_refl eq_refl).
Defined.

Lemma failed_run_not_cached_witness :
  @preprocess_cell unit Example.json Example.failing_engine
    (Self default_traits "python" None ["x = 1"] 1)
    (Example.code "print(x)") 1 Example.fresh_failing
  = (Raise KernelError,
     @State unit Example.failing_engine ∅ 1%nat
       [Executing 1 "python"; Ran "x = 1"]).
Proof.
  apply (@failed_run_not_cached unit Example.json Example.failing_engine
           (Self default_traits "python" None ["x = 1"] 1)
           (Example.code "print(x)") 1 Example.fresh_failing).
  - reflexivity.
  - vm_compute. reflexivity.
  - reflexivity.
Defined.

Lemma corrupt_entry_aborts_witness :
  (preprocess_cell (Self default_traits "python" None ["x = 1"] 1)
     (Example.code "x = 1") 0
     (@State unit Example.engine
        {["/tmp/nb_output_cache/34/bce5f775de97f557a34088509c8bfe1ea17e52.json"
          := "[null,"]} O [])).1
  = Raise JSONDecodeError.
Proof.
  rewrite (corrupt_entry_aborts
             (Self default_traits "python" None ["x = 1"] 1)
             (Example.code "x = 1") 0
             (@State unit Example.engine
                {["/tmp/nb_output_cache/34/bce5f775de97f557a34088509c8bfe1ea17e52.json"
                  := "[null,"]} O [])
             "[null,").
  - reflexivity.
  - reflexivity.
  - vm_compute. reflexivity.
  - reflexivity.
Defined.

Lemma pass_aborts_at_first_failure_witness :
  @preprocess_cells unit Example.json Example.failing_engine
    (Self default_traits "python" None ["x = 1"] 1) 0
    ([Example.markdown "# Notes"] ++ Example.code "x = 1" :: [Example.code "y"])
    Example.fresh_failing
  = (Raise KernelError,
     (@preprocess_cell unit Example.json Example.failing_engine
        (Self default_traits "python" None ["x = 1"] 1)
        (Example.code "x = 1") 1 Example.fresh_failing).2).
Proof.
  apply (@pass_aborts_at_first_failure unit Example.json Example.failing_engine
           (Self default_traits "python" None ["x = 1"] 1) 0
           [Example.markdown "# Notes"] (Example.code "x = 1")
           [Example.code "y"] Example.fresh_failing
           [Example.markdown "# Notes"] Example.fresh_failing).
  - reflexivity.
  - vm_compute. reflexivity.
Defined.

Lemma effective_source_injective_witness : "print(x)" = "print(x)".
Proof.
  exact (effective_source_injective
           (Self default_traits "python" None ["x = 1"] 1)
           "print(x)" "print(x)" 2 eq_refl).
Defined.

Lemma setup_edit_changes_hashed_text_witness :
  effective_source (Self default_traits "python" None ["x = 1"] 1) "b" 2
  ≠ effective_source (Self default_traits "python" None ["x = 2"] 1) "b" 2.
Proof.
  apply (setup_edit_changes_hashed_text default_traits
           (Example.nb_of [Example.code "x = 1"; Example.code "a"; Example.code "b"])
           (Example.nb_of [Example.code "x = 2"; Example.code "a"; Example.code "b"])
           Example.no_resources
           (Self default_traits "python" None ["x = 1"] 1)
           (Self default_traits "python" None ["x = 2"] 1)
           [] [Example.code "a"; Example.code "b"]
           (Example.code "x = 1") (Example.code "x = 2")
           eq_refl eq_refl eq_refl eq_refl eq_refl eq_refl).
  - discriminate.
  - simpl. lia.
  - apply le_n.
Defined.

Lemma main_stops_at_first_failure_witness :
  (Script.main Example.read_one
     ["cachedoutput.py"; "good.ipynb"; "missing.ipynb"; "good.ipynb"]
     (Script.Process Example.fresh [])).1
  = Raise (FileNotFoundError "missing.ipynb").
Proof.
  destruct (Script.main_loop Example.read_one ["good.ipynb"]
              (Script.Process Example.fresh [])) as [[[]|e] ps1] eqn:Hfirst.
  - destruct (main_stops_at_first_failure Example.read_one
                ["good.ipynb"] "missing.ipynb" ["good.ipynb"]
                (Script.Process Example.fresh []) ps1
                (FileNotFoundError "missing.ipynb") ps1 Hfirst eq_refl)
      as [Hmain _].
    unfold Script.main. cbn [tail]. cbn [app] in Hmain.
    by rewrite Hmain.
  - vm_compute in Hfirst. discriminate Hfirst.
Defined.

Lemma working_directory_of_bare_name_witness :
  Script.working_directory "nb.ipynb" = ".".
Proof.
  exact (proj2 (working_directory_of_bare_name "nb.ipynb") eq_refl).
Defined.
